(** * The bot watchdog of [watchdog.py]: log tailing, burst detection and
      the restart policy of the monitoring loop.

    The development embeds [LogMonitor], [StorageMonitor] and [BotWatchdog]
    as pure functions over explicit state.  Whatever the Python code obtains
    from the operating system (the bytes of [logs.txt], the free space of the
    disk, the state of the child process, the wall clock, the outcome of
    [subprocess.Popen]) is an input of the function that consumes it.

    Readings of [time.time()] and the percentages of [psutil] are rationals;
    timestamps parsed from log lines are whole seconds.  The calls to
    [logging] inside [LogMonitor] are left out; those of [StorageMonitor]
    and [BotWatchdog] are events of the pass that makes them. *)

From Stdlib Require Import ZArith QArith List Bool Ascii String Lia Lqa.
Import ListNotations.

Local Open Scope string_scope.
Local Open Scope list_scope.
Local Open Scope nat_scope.

(** ** Python built-ins used by the source *)

Definition LF : ascii := ascii_of_nat 10.
Definition CR : ascii := ascii_of_nat 13.
Definition nl : string := String LF EmptyString.

(** [str.isspace] on the code points below 256. *)
Definition is_space (c : ascii) : bool :=
  let n := nat_of_ascii c in
  ((9 <=? n) && (n <=? 13)) || ((28 <=? n) && (n <=? 32))
  || (n =? 133) || (n =? 160).

Fixpoint lstrip_chars (l : list ascii) : list ascii :=
  match l with
  | [] => []
  | c :: l' => if is_space c then lstrip_chars l' else l
  end.

(** [s.strip()] *)
Definition strip (s : string) : string :=
  string_of_list_ascii
    (rev (lstrip_chars (rev (lstrip_chars (list_ascii_of_string s))))).

(** [sub in s] *)
Fixpoint contains (sub s : string) : bool :=
  prefix sub s
  || match s with
     | EmptyString => false
     | String _ s' => contains sub s'
     end.

(** The truth value of an optional string: [None] and [''] are false. *)
Definition truthy (o : option string) : bool :=
  match o with
  | Some (String _ _) => true
  | _ => false
  end.

(** [s[n:]] *)
Fixpoint drop (n : nat) (s : string) : string :=
  match n, s with
  | O, _ => s
  | S _, EmptyString => EmptyString
  | S n', String _ s' => drop n' s'
  end.

(** [f.readlines()] of a file opened in text mode: a line ends at ["\n"],
    ["\r\n"] or ["\r"], each handed over as ["\n"]; a last line without a
    terminator is returned as it is.  [cur] is the line read so far. *)
Fixpoint readlines_from (cur s : string) : list string :=
  match s with
  | EmptyString =>
      match cur with
      | EmptyString => []
      | _ => [cur]
      end
  | String c s' =>
      if Ascii.eqb c LF then (cur ++ nl)%string :: readlines_from EmptyString s'
      else if Ascii.eqb c CR then
        match s' with
        | String c' s'' =>
            if Ascii.eqb c' LF
            then (cur ++ nl)%string :: readlines_from EmptyString s''
            else (cur ++ nl)%string :: readlines_from EmptyString s'
        | EmptyString => (cur ++ nl)%string :: readlines_from EmptyString s'
        end
      else readlines_from (cur ++ String c EmptyString)%string s'
  end.

Definition readlines (s : string) : list string :=
  readlines_from EmptyString s.

(** [collections.deque(maxlen=...)]: [append] on a full deque discards the
    leftmost item. *)
Definition deque_append {A : Type} (maxlen : nat) (d : list A) (x : A)
  : list A :=
  if List.length d <? maxlen then d ++ [x] else tl (d ++ [x]).

(** ** A reading of [datetime.strptime(s, '%d-%m-%Y %H:%M:%S')]

    The functions of the watchdog take the parser as a parameter.  The
    instance below reads the strict layout, two digits per field and four for
    the year, and gives the number of seconds since the start of year 1 of
    the proleptic Gregorian calendar, as [datetime] counts them; it rejects
    what [datetime] rejects in that layout (day 00, month 13, 30-02, year
    0000, 24:00:00, second 60). *)

Definition digit (c : ascii) : option Z :=
  let n := nat_of_ascii c in
  if (48 <=? n) && (n <=? 57) then Some (Z.of_nat (n - 48)) else None.

Fixpoint number (l : list ascii) (acc : Z) : option Z :=
  match l with
  | [] => Some acc
  | c :: l' =>
      match digit c with
      | Some d => number l' (10 * acc + d)%Z
      | None => None
      end
  end.

Definition is_leap (y : Z) : bool :=
  ((y mod 4 =? 0) && (negb (y mod 100 =? 0) || (y mod 400 =? 0)))%Z.

Definition days_in_month (y m : Z) : Z :=
  (if m =? 2 then (if is_leap y then 29 else 28)
   else if (m =? 4) || (m =? 6) || (m =? 9) || (m =? 11) then 30
   else 31)%Z.

Definition days_before_year (y : Z) : Z :=
  ((y - 1) * 365 + (y - 1) / 4 - (y - 1) / 100 + (y - 1) / 400)%Z.

Definition days_before_month (y m : Z) : Z :=
  fold_left Z.add
    (map (fun k => days_in_month y (Z.of_nat k)) (seq 1 (Z.to_nat m - 1)))
    0%Z.

Definition ymd2ord (y m d : Z) : Z :=
  (days_before_year y + days_before_month y m + d)%Z.

Definition is_char (c : ascii) (code : nat) : bool :=
  nat_of_ascii c =? code.

Definition strptime_dmy_hms (s : string) : option Z :=
  match list_ascii_of_string s with
  | [d1; d2; c1; m1; m2; c2; y1; y2; y3; y4; c3; h1; h2; c4; n1; n2; c5;
     s1; s2] =>
      if is_char c1 45 && is_char c2 45 && is_char c3 32
         && is_char c4 58 && is_char c5 58
      then
        match number [d1; d2] 0, number [m1; m2] 0, number [y1; y2; y3; y4] 0,
              number [h1; h2] 0, number [n1; n2] 0, number [s1; s2] 0 with
        | Some d, Some m, Some y, Some hh, Some mm, Some ss =>
            if ((1 <=? y) && (1 <=? m) && (m <=? 12) && (1 <=? d)
                && (d <=? days_in_month y m) && (hh <=? 23) && (mm <=? 59)
                && (ss <=? 59))%Z
            then Some ((ymd2ord y m d * 86400) + hh * 3600 + mm * 60 + ss)%Z
            else None
        | _, _, _, _, _, _ => None
        end
      else None
  | _ => None
  end.

(** ** [LogMonitor] *)

Record SocketError := mkSocketError {
  timestamp : string;
  full_error : string;
  count : nat
}.

Record LogMonitor := mkLogMonitor {
  log_file : string;
  last_position : nat;
  error_history : list string;
  critical_errors : list string;
  socket_errors : list SocketError
}.

Definition socket_marker : string := "socket.send() raised exception".

(** [LogMonitor.__init__] *)
Definition LogMonitor_init : LogMonitor :=
  {| log_file := "logs.txt";
     last_position := 0;
     error_history := [];
     critical_errors :=
       ["RuntimeError"; "ConnectionError"; "ServerDisconnectedError";
        "ClientConnectorError"; socket_marker];
     socket_errors := [] |}.

Definition set_last_position (lm : LogMonitor) (p : nat) : LogMonitor :=
  {| log_file := log_file lm;
     last_position := p;
     error_history := error_history lm;
     critical_errors := critical_errors lm;
     socket_errors := socket_errors lm |}.

Definition set_error_history (lm : LogMonitor) (h : list string)
  : LogMonitor :=
  {| log_file := log_file lm;
     last_position := last_position lm;
     error_history := h;
     critical_errors := critical_errors lm;
     socket_errors := socket_errors lm |}.

Definition set_socket_errors (lm : LogMonitor) (w : list SocketError)
  : LogMonitor :=
  {| log_file := log_file lm;
     last_position := last_position lm;
     error_history := error_history lm;
     critical_errors := critical_errors lm;
     socket_errors := w |}.

(** What [logs.txt] is when [check_logs] looks at it. *)
Inductive LogFile :=
| Missing                      (* os.path.exists is False *)
| Unreadable                   (* open or read raises *)
| Content (bytes : string).    (* ASCII text, one character per byte *)

(** [LogMonitor.get_last_error] *)
Definition get_last_error (lm : LogMonitor) : option string :=
  match error_history lm with
  | [] => None
  | x :: h => Some (last h x)
  end.


(** ** [StorageMonitor] and [BotWatchdog] *)

Inductive Level := INFO | WARNING | ERROR.

(** The messages handed to [logging], by the place that writes them. *)
Inductive LogMsg :=
| LowStorageSpace (free : Z)
| StorageCheckError
| LowStorageCleaning
| BotStarted (pid : Z)
| BotTerminated (pid : Z)
| ErrorKilling
| FailedToStart
| HighMemory
| HighCPU
| HealthCheckError
| SocketSendDetected
| LastErrorBeforeCrash (e : string)
| AttemptingRestart
| BotRestarted (n : Z)
| MaxRestartsReached
| FinalError (e : string)
| CriticalErrorDetected (e : string).

(** What a tick does to the world outside the watchdog object. *)
Inductive Event :=
| Log (lvl : Level) (m : LogMsg)
| CleanDirectories            (* StorageMonitor.clean_directories *)
| TruncateLog                 (* open('logs.txt', 'w'); f.truncate(0) *)
| Popen (result : option Z)   (* subprocess.Popen: the pid, or it raised *)
| Terminate (pid : Z)         (* a terminate() call that returned *)
| Sleep (seconds : Z)
| SysExit (code : Z).

Inductive Outcome :=
| Continue
| Exit (code : Z).

(** What [psutil] finds for the pid of the handle. *)
Inductive ProcStatus :=
| NoSuchProcess
| Zombie
| Running (mem_percent cpu_percent : Q)
| InspectError.

(** What the [try] block of [kill_bot] does on a held handle: the children
    whose [terminate()] returned, in order, and how the block ends. *)
Inductive KillResult :=
| KillDone (children : list Z)           (* the parent is terminated too *)
| KillNoSuchProcess (children : list Z)  (* psutil.NoSuchProcess was raised *)
| KillError (children : list Z).         (* another exception was raised *)

Record StorageMonitor := mkStorageMonitor {
  min_free_space : Z
}.

Record BotWatchdog := mkBotWatchdog {
  bot_process : option Z;
  restart_count : Z;
  max_restarts : Z;
  restart_interval : Q;
  last_restart : Q;
  log_monitor : LogMonitor;
  log_check_interval : Z;
  storage_monitor : StorageMonitor;
  storage_check_interval : Z
}.

(** [BotWatchdog.__init__] *)
Definition BotWatchdog_init : BotWatchdog :=
  {| bot_process := None;
     restart_count := 0;
     max_restarts := 5;
     restart_interval := 60;
     last_restart := 0;
     log_monitor := LogMonitor_init;
     log_check_interval := 10;
     storage_monitor := {| min_free_space := 1024 * 1024 * 1024 |};
     storage_check_interval := 300 |}.

Definition set_bot_process (w : BotWatchdog) (p : option Z) : BotWatchdog :=
  {| bot_process := p;
     restart_count := restart_count w;
     max_restarts := max_restarts w;
     restart_interval := restart_interval w;
     last_restart := last_restart w;
     log_monitor := log_monitor w;
     log_check_interval := log_check_interval w;
     storage_monitor := storage_monitor w;
     storage_check_interval := storage_check_interval w |}.

Definition set_restart_count (w : BotWatchdog) (n : Z) : BotWatchdog :=
  {| bot_process := bot_process w;
     restart_count := n;
     max_restarts := max_restarts w;
     restart_interval := restart_interval w;
     last_restart := last_restart w;
     log_monitor := log_monitor w;
     log_check_interval := log_check_interval w;
     storage_monitor := storage_monitor w;
     storage_check_interval := storage_check_interval w |}.

Definition set_last_restart (w : BotWatchdog) (t : Q) : BotWatchdog :=
  {| bot_process := bot_process w;
     restart_count := restart_count w;
     max_restarts := max_restarts w;
     restart_interval := restart_interval w;
     last_restart := t;
     log_monitor := log_monitor w;
     log_check_interval := log_check_interval w;
     storage_monitor := storage_monitor w;
     storage_check_interval := storage_check_interval w |}.

Definition set_log_monitor (w : BotWatchdog) (lm : LogMonitor)
  : BotWatchdog :=
  {| bot_process := bot_process w;
     restart_count := restart_count w;
     max_restarts := max_restarts w;
     restart_interval := restart_interval w;
     last_restart := last_restart w;
     log_monitor := lm;
     log_check_interval := log_check_interval w;
     storage_monitor := storage_monitor w;
     storage_check_interval := storage_check_interval w |}.

(** The watchdog object together with the two local counters of
    [monitor_loop]. *)
Record Loop := mkLoop {
  self : BotWatchdog;
  log_check_counter : Z;
  storage_check_counter : Z
}.

(** What one pass of the [while True] body observes. *)
Record TickEnv := mkTickEnv {
  disk_usage : option Z;     (* free bytes; None: shutil.disk_usage raised *)
  proc_status : ProcStatus;
  time_now : Q;              (* time.time() *)
  kill_result : KillResult;  (* what kill_bot meets, if it has a handle *)
  popen : option Z;          (* pid of the new child; None: Popen raised *)
  logs_txt : LogFile
}.

(** [a > b] on clock readings. *)
Definition Qgtb (a b : Q) : bool := negb (Qle_bool a b).

(** [StorageMonitor.check_storage] *)
Definition check_storage (sm : StorageMonitor) (du : option Z)
  : bool * list Event :=
  match du with
  | Some free =>
      if (free <? min_free_space sm)%Z
      then (false, [Log WARNING (LowStorageSpace free)])
      else (true, [])
  | None => (false, [Log ERROR StorageCheckError])
  end.

(** [StorageMonitor.clean_directories]; its result is not used by any
    caller. *)
Definition clean_directories : list Event := [CleanDirectories].

(** [BotWatchdog.start_bot]; emptying [logs.txt] is taken to succeed, so
    the handler of the [try] is reached from [Popen] only. *)
Definition start_bot (env : TickEnv) (w : BotWatchdog)
  : BotWatchdog * bool * list Event :=
  let pre :=
    clean_directories
    ++ match logs_txt env with
       | Missing => []
       | _ => [TruncateLog]
       end in
  match popen env with
  | Some pid =>
      (set_bot_process w (Some pid), true,
       pre ++ [Popen (Some pid); Log INFO (BotStarted pid)])
  | None => (w, false, pre ++ [Popen None; Log ERROR FailedToStart])
  end.

(** [BotWatchdog.kill_bot]: without a handle it returns at once; with one,
    the children are terminated, then the parent, unless an exception ends
    the block; [psutil.NoSuchProcess] is passed over, another exception is
    logged, and the handle is cleared in every case. *)
Definition kill_bot (w : BotWatchdog) (k : KillResult)
  : BotWatchdog * list Event :=
  match bot_process w with
  | None => (w, [])
  | Some pid =>
      (set_bot_process w None,
       match k with
       | KillDone children =>
           map Terminate children
           ++ [Terminate pid; Log INFO (BotTerminated pid)]
       | KillNoSuchProcess children => map Terminate children
       | KillError children =>
           map Terminate children ++ [Log ERROR ErrorKilling]
       end)
  end.

(** [BotWatchdog.check_bot_health] *)
Definition check_bot_health (w : BotWatchdog) (p : ProcStatus)
  : bool * list Event :=
  match bot_process w with
  | None => (false, [])
  | Some _ =>
      match p with
      | NoSuchProcess => (false, [])
      | Zombie => (false, [])
      | InspectError => (false, [Log ERROR HealthCheckError])
      | Running mem cpu =>
          (true,
           (if Qgtb mem 90 then [Log WARNING HighMemory] else [])
           ++ (if Qgtb cpu 80 then [Log WARNING HighCPU] else []))
      end
  end.

(** The storage part of the loop body. *)
Definition storage_stage (env : TickEnv) (l : Loop) : Z * list Event :=
  let c := (storage_check_counter l + 1)%Z in
  if (storage_check_interval (self l) <=? c)%Z then
    let '(ok, ev) := check_storage (storage_monitor (self l)) (disk_usage env)
    in
    if ok then (0%Z, ev)
    else (0%Z, ev ++ [Log WARNING LowStorageCleaning] ++ clean_directories)
  else (c, []).

(** The branch of the loop body taken when the health check fails. *)
Definition unhealthy_stage (env : TickEnv) (w : BotWatchdog)
  : BotWatchdog * list Event * Outcome :=
  let last_error := get_last_error (log_monitor w) in
  let e := match last_error with Some x => x | None => EmptyString end in
  let ev1 :=
    if truthy last_error && contains socket_marker e
    then [Log WARNING SocketSendDetected; Sleep 5] else [] in
  let ev2 :=
    if truthy last_error then [Log WARNING (LastErrorBeforeCrash e)] else []
  in
  let current_time := time_now env in
  if Qgtb (current_time - last_restart w) (restart_interval w) then
    if (restart_count w <? max_restarts w)%Z then
      let '(w1, evk) := kill_bot w (kill_result env) in
      let '(w2, started, evs) := start_bot env w1 in
      let pre := ev1 ++ ev2 ++ [Log WARNING AttemptingRestart] ++ evk ++ evs in
      if started then
        let n := (restart_count w2 + 1)%Z in
        (set_last_restart (set_restart_count w2 n) current_time,
         pre ++ [Log INFO (BotRestarted n)], Continue)
      else (w2, pre, Continue)
    else
      (w,
       ev1 ++ ev2 ++ [Log ERROR MaxRestartsReached]
       ++ (if truthy last_error then [Log ERROR (FinalError e)] else [])
       ++ [SysExit 1],
       Exit 1)
  else (w, ev1 ++ ev2, Continue).

Section Watchdog.

(** [datetime.strptime(_, '%d-%m-%Y %H:%M:%S')] as seconds on the naive time
    line; [None] stands for the [ValueError] it raises. *)
Variable strptime : string -> option Z.

(** The loop of [analyze_socket_error] that fills [time_diffs]; [None] when
    one of the [strptime] calls raises. *)
Fixpoint time_diffs (w : list SocketError) : option (list Z) :=
  match w with
  | e1 :: ((e2 :: _) as rest) =>
      match strptime (timestamp e1), strptime (timestamp e2),
            time_diffs rest with
      | Some t1, Some t2, Some diffs => Some ((t2 - t1)%Z :: diffs)
      | _, _, _ => None
      end
  | _ => Some []
  end.

Definition burst_signal : string := "frequent_socket_errors".

(** [LogMonitor.analyze_socket_error]; the record enters the window before
    any timestamp is parsed, and the handler of the [try] returns [None]. *)
Definition analyze_socket_error (lm : LogMonitor) (error_line : string)
  : LogMonitor * option string :=
  let ts := substring 0 19 error_line in
  let lm' :=
    set_socket_errors lm
      (deque_append 10 (socket_errors lm)
         {| timestamp := ts;
            full_error := error_line;
            count := List.length (socket_errors lm) + 1 |}) in
  if 3 <=? List.length (socket_errors lm') then
    match time_diffs (socket_errors lm') with
    | Some diffs =>
        if existsb (fun diff => (diff <? 60)%Z) diffs
        then (lm', Some burst_signal)
        else (lm', None)
    | None => (lm', None)
    end
  else (lm', None).

(** The [for line in new_lines] loop of [check_logs], with its two
    [return]s. *)
Fixpoint process_lines (lm : LogMonitor) (new_lines : list string)
  : LogMonitor * option string :=
  match new_lines with
  | [] => (lm, None)
  | line :: rest =>
      if contains socket_marker line then
        analyze_socket_error
          (set_error_history lm
             (deque_append 100 (error_history lm) (strip line)))
          (strip line)
      else if contains "ERROR" line then
        let lm1 :=
          set_error_history lm
            (deque_append 100 (error_history lm) (strip line)) in
        if existsb (fun err => contains err line) (critical_errors lm1)
        then (lm1, Some (strip line))
        else process_lines lm1 rest
      else process_lines lm rest
  end.

(** [LogMonitor.check_logs]: seek to the stored offset, read to the end of
    the file, store [f.tell()], classify.  A seek past the end reads nothing
    and leaves the position where it was put. *)
Definition check_logs (lm : LogMonitor) (f : LogFile)
  : LogMonitor * option string :=
  match f with
  | Missing => (lm, None)
  | Unreadable => (lm, None)
  | Content bytes =>
      let new_lines := readlines (drop (last_position lm) bytes) in
      let lm' :=
        set_last_position lm (Nat.max (last_position lm) (String.length bytes))
      in
      process_lines lm' new_lines
  end.


(** The branch of the loop body taken when the health check succeeds. *)
Definition healthy_stage (env : TickEnv) (w : BotWatchdog) (counter : Z)
  : BotWatchdog * Z * list Event :=
  let c := (counter + 1)%Z in
  let '(w1, c1, ev) :=
    if (log_check_interval w <=? c)%Z then
      let '(lm, critical_error) := check_logs (log_monitor w) (logs_txt env)
      in
      (set_log_monitor w lm, 0%Z,
       if truthy critical_error
       then [Log WARNING
               (CriticalErrorDetected
                  match critical_error with
                  | Some x => x
                  | None => EmptyString
                  end)]
       else [])
    else (w, c, []) in
  if Qgtb (time_now env - last_restart w1) 3600
  then (set_restart_count w1 0, c1, ev)
  else (w1, c1, ev).

(** One pass of the body of [while True] in [monitor_loop].  [sys.exit]
    raises [SystemExit], which [except Exception] does not catch: the loop
    ends with that status. *)
Definition tick (env : TickEnv) (l : Loop) : Loop * list Event * Outcome :=
  let '(sc, ev_s) := storage_stage env l in
  let '(healthy, ev_h) := check_bot_health (self l) (proc_status env) in
  if negb healthy then
    let '(w, ev, o) := unhealthy_stage env (self l) in
    match o with
    | Continue =>
        ({| self := w;
            log_check_counter := log_check_counter l;
            storage_check_counter := sc |},
         ev_s ++ ev_h ++ ev ++ [Sleep 1], Continue)
    | Exit code =>
        ({| self := w;
            log_check_counter := log_check_counter l;
            storage_check_counter := sc |},
         ev_s ++ ev_h ++ ev, Exit code)
    end
  else
    let '(w, lc, ev) := healthy_stage env (self l) (log_check_counter l) in
    ({| self := w; log_check_counter := lc; storage_check_counter := sc |},
     ev_s ++ ev_h ++ ev ++ [Sleep 1], Continue).

(** [monitor_loop] run over the observations of successive passes; it stops
    at the pass that exits. *)
Fixpoint monitor_loop (envs : list TickEnv) (l : Loop)
  : Loop * list Event * Outcome :=
  match envs with
  | [] => (l, [], Continue)
  | env :: envs' =>
      match tick env l with
      | (l', ev, Continue) =>
          let '(l'', ev', o) := monitor_loop envs' l' in (l'', ev ++ ev', o)
      | (l', ev, Exit code) => (l', ev, Exit code)
      end
  end.

(** [BotWatchdog.run] after the signal handlers are installed: the first
    launch, whose result is dropped, then the loop. *)
Definition run (env0 : TickEnv) (envs : list TickEnv)
  : Loop * list Event * Outcome :=
  let '(w, _, ev0) := start_bot env0 BotWatchdog_init in
  let '(l, ev, o) :=
    monitor_loop envs
      {| self := w; log_check_counter := 0; storage_check_counter := 0 |} in
  (l, ev0 ++ ev, o).

End Watchdog.


(** ** [StorageMonitor.clean_directories] on the two directories *)

(** A scratch directory: absent, or present with the sizes of the files
    under it; [rmtree_ok] tells whether [shutil.rmtree] gets through. *)
Inductive ScratchDir :=
| Absent
| Present (file_sizes : list Z) (rmtree_ok : bool).

Record Scratch := mkScratch {
  downloads_path : ScratchDir;
  cache_path : ScratchDir
}.

(** The body of the [for directory in ...] loop: the directory afterwards
    and the size added to [cleaned_size]; [None] when [rmtree] raises. *)
Definition clean_directory (d : ScratchDir) : option (ScratchDir * Z) :=
  match d with
  | Absent => Some (Absent, 0%Z)
  | Present sizes true => Some (Present [] true, fold_left Z.add sizes 0%Z)
  | Present _ false => None
  end.

(** [clean_directories] as it acts on the directories: the directories
    afterwards, [cleaned_size], and whether the size is logged; [None] is
    the [except] branch, which returns [False] and after which the
    directory that failed is in no known state. *)
Definition clean_directories_on (s : Scratch) : option (Scratch * Z * bool) :=
  match clean_directory (downloads_path s) with
  | Some (d, n1) =>
      match clean_directory (cache_path s) with
      | Some (c, n2) =>
          let cleaned_size := (0 + n1 + n2)%Z in
          Some ({| downloads_path := d; cache_path := c |}, cleaned_size,
                (0 <? cleaned_size)%Z)
      | None => None
      end
  | None => None
  end.

(** ** [helper.py]: the chat cache *)

Definition CHAT_CACHE_TTL : Z := 60 * 60 * 12.

(** [a < b] on clock readings. *)
Definition Qltb (a b : Q) : bool := negb (Qle_bool b a).

Section ChatCache.

(** What [app.get_chat] returns. *)
Variable Chat : Type.

(** The module-level dict [chat_cache]: chat id to (time stored, data), one
    binding per key. *)
Definition ChatCacheDict : Type := list (Z * (Q * Chat)).

(** [chat_cache[chat_id]], [None] when [chat_id not in chat_cache]. *)
Fixpoint cache_get (c : ChatCacheDict) (chat_id : Z) : option (Q * Chat) :=
  match c with
  | [] => None
  | (k, v) :: c' => if (k =? chat_id)%Z then Some v else cache_get c' chat_id
  end.

(** [chat_cache[chat_id] = v] *)
Definition cache_set (c : ChatCacheDict) (chat_id : Z) (v : Q * Chat)
  : ChatCacheDict :=
  (chat_id, v) :: filter (fun kv => negb (fst kv =? chat_id)%Z) c.

(** [get_chat_cached].  [get_chat] is [app.get_chat], [None] where it
    raises; the result is the cache after the call, the value returned
    ([None] when the exception of [app.get_chat] goes through), and the chat
    ids asked of [app]. *)
Definition get_chat_cached (c : ChatCacheDict) (current_time : Q)
  (get_chat : Z -> option Chat) (chat_id : Z)
  : ChatCacheDict * option Chat * list Z :=
  let miss :=
    match get_chat chat_id with
    | Some chat_data =>
        (cache_set c chat_id (current_time, chat_data), Some chat_data,
         [chat_id])
    | None => (c, None, [chat_id])
    end in
  match cache_get c chat_id with
  | Some (cache_time, chat_data) =>
      if Qltb (current_time - cache_time) (inject_Z CHAT_CACHE_TTL)
      then (c, Some chat_data, [])
      else miss
  | None => miss
  end.

End ChatCache.

Arguments cache_get {Chat} c chat_id.
Arguments cache_set {Chat} c chat_id v.
Arguments get_chat_cached {Chat} c current_time get_chat chat_id.

(** ** [process_monitor.py]: finding the bot process *)

(** [psutil.Process(self.last_found_pid)] followed by [is_running()]. *)
Inductive PidLookup :=
| LookupRunning
| LookupNotRunning
| LookupNoSuchProcess       (* psutil.NoSuchProcess *)
| LookupError.              (* any other exception *)

(** [psutil.Process(pid)] on a process found by the scan. *)
Inductive Reopen :=
| Opened
| Vanished                  (* psutil.NoSuchProcess or psutil.AccessDenied *)
| ReopenError.              (* any other exception *)

(** One item of [psutil.process_iter]: [proc.info] and what opening the
    process by its pid will give. *)
Record ProcInfo := mkProcInfo {
  info_pid : Z;
  info_cmdline : option (list string);
  reopen : Reopen
}.

(** [' '.join(proc.info['cmdline'] or [])] *)
Definition cmdline_of (p : ProcInfo) : string :=
  String.concat " "
    match info_cmdline p with
    | Some (x :: args) => x :: args
    | _ => []
    end.

Definition matches_bot (p : ProcInfo) : bool :=
  contains "AnonXMusic" (cmdline_of p)
  || contains "python3 -m AnonXMusic" (cmdline_of p).

(** The [for proc in psutil.process_iter(...)] loop of [get_bot_process]:
    the value of [last_found_pid] after it and the pid of the process
    returned. *)
Fixpoint scan_processes (last_found_pid : option Z) (procs : list ProcInfo)
  : option Z * option Z :=
  match procs with
  | [] => (last_found_pid, None)
  | p :: rest =>
      if matches_bot p then
        match reopen p with
        | Opened => (Some (info_pid p), Some (info_pid p))
        | Vanished => scan_processes (Some (info_pid p)) rest
        | ReopenError => (Some (info_pid p), None)
        end
      else scan_processes last_found_pid rest
  end.

(** [ProcessTracker.get_bot_process].  [last_lookup] is what looking up the
    remembered pid gives, [procs] what [psutil.process_iter] yields ([None]
    when it raises). *)
Definition get_bot_process (last_found_pid : option Z)
  (last_lookup : PidLookup) (procs : option (list ProcInfo))
  : option Z * option Z :=
  let scan last :=
    match procs with
    | Some ps => scan_processes last ps
    | None => (last, None)
    end in
  match last_found_pid with
  | Some pid =>
      if (pid =? 0)%Z then scan last_found_pid
      else
        match last_lookup with
        | LookupRunning => (last_found_pid, Some pid)
        | LookupNotRunning => scan last_found_pid
        | LookupNoSuchProcess => scan None
        | LookupError => (last_found_pid, None)
        end
  | None => scan None
  end.

(** ** Notions used to state the properties *)

(** The differences between neighbours of a list of parsed timestamps, in
    the order of arrival. *)
Fixpoint gaps (ts : list Z) : list Z :=
  match ts with
  | t1 :: ((t2 :: _) as rest) => (t2 - t1)%Z :: gaps rest
  | _ => []
  end.

Definition parses (strptime : string -> option Z) (e : SocketError) : bool :=
  match strptime (timestamp e) with
  | Some _ => true
  | None => false
  end.

(** [analyze_socket_error] called on each of [lines] in turn, results
    dropped. *)
Definition record_lines (strptime : string -> option Z) (lm : LogMonitor)
  (lines : list string) : LogMonitor :=
  fold_left (fun m l => fst (analyze_socket_error strptime m l)) lines lm.

(** The statement that records whose timestamp does not parse have no
    effect on the evaluation of a line: the result is the one obtained with
    those records taken out of the window. *)
Definition unparseable_records_ignored (strptime : string -> option Z)
  (lm : LogMonitor) (line : string) : Prop :=
  snd (analyze_socket_error strptime lm line)
  = snd (analyze_socket_error strptime
           (set_socket_errors lm
              (filter (parses strptime) (socket_errors lm)))
           line).

(** The statement that a poll of a file shorter than the stored offset
    behaves as a poll from offset 0. *)
Definition truncation_resets_cursor (strptime : string -> option Z)
  (lm : LogMonitor) (bytes : string) : Prop :=
  String.length bytes < last_position lm ->
  check_logs strptime lm (Content bytes)
  = check_logs strptime (set_last_position lm 0) (Content bytes).

Definition is_kill_or_launch (e : Event) : bool :=
  match e with
  | Terminate _ | Popen _ => true
  | _ => false
  end.

Definition kills_or_launches (ev : list Event) : bool :=
  existsb is_kill_or_launch ev.

Definition is_popen (e : Event) : bool :=
  match e with
  | Popen _ => true
  | _ => false
  end.

Definition popen_attempts (ev : list Event) : nat :=
  List.length (filter is_popen ev).

Definition is_popen_ok (e : Event) : bool :=
  match e with
  | Popen (Some _) => true
  | _ => false
  end.

(** The launches of a run of events that gave a child. *)
Definition popen_successes (ev : list Event) : nat :=
  List.length (filter is_popen_ok ev).

(** The pids whose [terminate()] returned, in order. *)
Fixpoint terminated_pids (ev : list Event) : list Z :=
  match ev with
  | [] => []
  | Terminate pid :: ev' => pid :: terminated_pids ev'
  | _ :: ev' => terminated_pids ev'
  end.

Definition is_running (p : ProcStatus) : bool :=
  match p with
  | Running _ _ => true
  | _ => false
  end.

Definition is_clean (e : Event) : bool :=
  match e with
  | CleanDirectories => true
  | _ => false
  end.

Definition unhealthy (env : TickEnv) (l : Loop) : Prop :=
  fst (check_bot_health (self l) (proc_status env)) = false.

Definition healthy (env : TickEnv) (l : Loop) : Prop :=
  fst (check_bot_health (self l) (proc_status env)) = true.

Definition set_disk_usage (env : TickEnv) (du : option Z) : TickEnv :=
  {| disk_usage := du;
     proc_status := proc_status env;
     time_now := time_now env;
     kill_result := kill_result env;
     popen := popen env;
     logs_txt := logs_txt env |}.

(** The statement that with the counter at the ceiling an unhealthy pass
    exits with status 1. *)
Definition ceiling_exits_on_unhealthy_tick (strptime : string -> option Z)
  (env : TickEnv) (l : Loop) : Prop :=
  restart_count (self l) = max_restarts (self l) ->
  unhealthy env l ->
  snd (tick strptime env l) = Exit 1.

(** The statement that launches that fail are bounded by the ceiling. *)
Definition launch_failures_reach_ceiling (strptime : string -> option Z)
  (envs : list TickEnv) (l : Loop) : Prop :=
  bot_process (self l) = None ->
  (forall env, In env envs -> popen env = None) ->
  popen_attempts (snd (fst (monitor_loop strptime envs l)))
  <= Z.to_nat (max_restarts (self l)).

(** The statement that a failed free-space query alone purges nothing. *)
Definition query_error_leaves_scratch (env : TickEnv) (l : Loop) : Prop :=
  disk_usage env = None ->
  existsb is_clean (snd (storage_stage env l)) = false.

(** The events of the unhealthy branch that come before the clock is read. *)
Definition preamble (w : BotWatchdog) : list Event :=
  let last_error := get_last_error (log_monitor w) in
  let e := match last_error with Some x => x | None => EmptyString end in
  (if truthy last_error && contains socket_marker e
   then [Log WARNING SocketSendDetected; Sleep 5] else [])
  ++ (if truthy last_error then [Log WARNING (LastErrorBeforeCrash e)]
      else []).

(** The two deques of a monitor within their [maxlen]. *)
Definition bounded_monitor (lm : LogMonitor) : Prop :=
  List.length (error_history lm) <= 100
  /\ List.length (socket_errors lm) <= 10.

(** A line that [check_logs] puts into the error history. *)
Definition is_error_line (line : string) : bool :=
  contains socket_marker line || contains "ERROR" line.

(** A line at which the loop of [check_logs] returns. *)
Definition ends_batch (crit : list string) (line : string) : bool :=
  contains socket_marker line
  || (contains "ERROR" line && existsb (fun err => contains err line) crit).

(** The lines of a batch that the loop reaches: those up to the first one
    at which it returns, that one included. *)
Fixpoint reached (crit : list string) (lines : list string) : list string :=
  match lines with
  | [] => []
  | line :: rest =>
      if ends_batch crit line then [line] else line :: reached crit rest
  end.

(** The records a poll inserts into the error history, in order. *)
Definition inserted_by_batch (crit : list string) (lines : list string)
  : list string :=
  map strip (filter is_error_line (reached crit lines)).

(** The lines a poll reads. *)
Definition new_lines_of (lm : LogMonitor) (f : LogFile) : list string :=
  match f with
  | Content bytes => readlines (drop (last_position lm) bytes)
  | _ => []
  end.

(** The records inserted into the error history by a sequence of polls. *)
Fixpoint inserted (strptime : string -> option Z) (lm : LogMonitor)
  (files : list LogFile) : list string :=
  match files with
  | [] => []
  | f :: fs =>
      inserted_by_batch (critical_errors lm) (new_lines_of lm f)
      ++ inserted strptime (fst (check_logs strptime lm f)) fs
  end.

(** [check_logs] called once for each state of the file, results dropped. *)
Definition poll_all (strptime : string -> option Z) (lm : LogMonitor)
  (files : list LogFile) : LogMonitor :=
  fold_left (fun m f => fst (check_logs strptime m f)) files lm.

(** ** Sample inputs *)

Definition socket_line (stamp : string) : string :=
  (stamp ++ " - WARNING - socket.send() raised exception.")%string.

Definition line_t0 : string := socket_line "01-01-2024 10:00:00".
Definition line_t10 : string := socket_line "01-01-2024 10:00:10".
Definition line_t40 : string := socket_line "01-01-2024 10:00:40".
Definition line_t90 : string := socket_line "01-01-2024 10:01:30".
Definition line_t200 : string := socket_line "01-01-2024 10:03:20".
Definition line_unstamped : string := "socket.send() raised exception.".


Definition sample_log : string :=
  ("01-01-2024 10:00:00 - ERROR - RuntimeError: boom" ++ nl ++
   "01-01-2024 10:00:01 - ERROR - second failure" ++ nl)%string.

(** The watchdog after [n] recorded restarts, the last one at [t], with the
    handle of the child started then. *)
Definition watchdog_restarted (n : Z) (t : Q) : BotWatchdog :=
  set_last_restart
    (set_restart_count (set_bot_process BotWatchdog_init (Some 4242%Z)) n) t.

Definition loop_of (w : BotWatchdog) (sc : Z) : Loop :=
  {| self := w; log_check_counter := 0; storage_check_counter := sc |}.

(** A pass at time [t] that finds the child gone; [launch] is what [Popen]
    will do. *)
Definition env_crashed (t : Q) (launch : option Z) : TickEnv :=
  {| disk_usage := Some (8 * 1024 * 1024 * 1024)%Z;
     proc_status := NoSuchProcess;
     time_now := t;
     kill_result := KillNoSuchProcess [];
     popen := launch;
     logs_txt := Content EmptyString |}.

(** A pass at time [t] that finds the child running. *)
Definition env_running (t : Q) : TickEnv :=
  {| disk_usage := Some (8 * 1024 * 1024 * 1024)%Z;
     proc_status := Running 12 3;
     time_now := t;
     kill_result := KillDone [];
     popen := None;
     logs_txt := Content EmptyString |}.

(** A monitor whose cursor is at 200 while [sample_log] has 94 bytes. *)
Definition monitor_past_end : LogMonitor :=
  set_last_position LogMonitor_init 200.

(** Six passes one second apart, each finding no child and failing to
    launch one. *)
Definition failing_launches : list TickEnv :=
  map (fun k => env_crashed (inject_Z (1700000100 + Z.of_nat k)) None)
      (seq 0 6).

Definition loop_two_restarts : Loop :=
  loop_of (watchdog_restarted 2 1700000000) 0.

Definition loop_three_restarts : Loop :=
  loop_of (watchdog_restarted 3 1700000000) 0.

Definition loop_at_ceiling : Loop :=
  loop_of (watchdog_restarted 5 1700000000) 0.

(** The state [run] leaves when the first launch fails. *)
Definition loop_never_started : Loop := loop_of BotWatchdog_init 0.

(** The 300th pass is the next one. *)
Definition loop_storage_due : Loop :=
  loop_of (watchdog_restarted 0 1699999000) 299.

Definition env_crash_after_30s : TickEnv :=
  env_crashed 1700000030 (Some 4243%Z).

Definition env_crash_after_100s : TickEnv :=
  env_crashed 1700000100 (Some 4243%Z).

Definition env_query_fails : TickEnv :=
  set_disk_usage (env_running 1700000000) None.

Definition env_stable : TickEnv := env_running 1700003601.

Definition plenty : Z := (8 * 1024 * 1024 * 1024)%Z.

(** A log of [n] lines with [ERROR] that name no critical error; the log
    of a smaller [n] is a prefix of it. *)
Definition error_log (n : nat) : string :=
  String.concat EmptyString
    (map (fun k =>
            ("ERROR request "
             ++ String (ascii_of_nat (48 + k / 10))
                  (String (ascii_of_nat (48 + k mod 10)) EmptyString)
             ++ " failed" ++ nl)%string)
         (seq 0 n)).

Definition quiet_log : string :=
  ("01-01-2024 09:59:58 - INFO - bot started" ++ nl ++
   "01-01-2024 09:59:59 - INFO - joined voice chat" ++ nl)%string.

Definition nine_socket_lines : list string :=
  map (fun k =>
         socket_line
           ("01-01-2024 11:0" ++ String (ascii_of_nat (48 + k)) ":00")%string)
      (seq 0 9).

(** The log counter is due on the next pass. *)
Definition loop_log_due : Loop :=
  {| self := watchdog_restarted 1 1700000000;
     log_check_counter := 9;
     storage_check_counter := 0 |}.

(** A pass that finds the child running hot, with errors in the log. *)
Definition env_running_hot : TickEnv :=
  {| disk_usage := Some (8 * 1024 * 1024 * 1024)%Z;
     proc_status := Running 95 99;
     time_now := 1700000010;
     kill_result := KillDone [];
     popen := None;
     logs_txt := Content sample_log |}.

Definition scratch_used : Scratch :=
  {| downloads_path := Present [100; 2048]%Z true; cache_path := Absent |}.

Definition scratch_purged : Scratch :=
  {| downloads_path := Present [] true; cache_path := Absent |}.

Definition chat_a : Z := (-1001234567890)%Z.
Definition chat_b : Z := (-1009876543210)%Z.

Definition app_up (chat_id : Z) : option string := Some "title".
Definition app_down (chat_id : Z) : option string := None.

Definition cache_with_old_entry : list (Z * (Q * string)) :=
  [(chat_a, (1700000000%Q, "old title"))].

Definition proc_shell : ProcInfo :=
  {| info_pid := 7; info_cmdline := Some ["bash"]; reopen := Opened |}.

Definition proc_bot_gone : ProcInfo :=
  {| info_pid := 10;
     info_cmdline := Some ["python3"; "-m"; "AnonXMusic"];
     reopen := Vanished |}.

Definition proc_bot : ProcInfo :=
  {| info_pid := 11;
     info_cmdline := Some ["python3"; "-m"; "AnonXMusic"];
     reopen := Opened |}.

(** A pass, 100 seconds after the last restart, that finds the child a
    zombie; [kill_bot] terminates one grandchild and the child. *)
Definition env_zombie_after_100s : TickEnv :=
  {| disk_usage := Some (8 * 1024 * 1024 * 1024)%Z;
     proc_status := Zombie;
     time_now := 1700000100;
     kill_result := KillDone [4300%Z];
     popen := Some 4243%Z;
     logs_txt := Content EmptyString |}.

(** Seven passes 100 seconds apart; each finds the child gone and launches
    a new one, which is gone again at the next. *)
Definition dying_child_passes : list TickEnv :=
  map (fun k =>
         env_crashed (inject_Z (1700000100 + 100 * Z.of_nat k))
           (Some (5000 + Z.of_nat k)%Z))
      (seq 0 7).

(** ** Properties *)

Section WatchdogProperties.

Variable strptime : string -> option Z.

(** *** The bounded deques *)

Lemma deque_append_suffix {A : Type} (n : nat) (d : list A) (x : A) :
  List.length d <= n ->
  deque_append n d x = skipn (List.length (d ++ [x]) - n) (d ++ [x]).
Proof.
  intros Hlen. unfold deque_append.
  rewrite length_app. cbn [List.length].
  destruct (Nat.ltb_spec (List.length d) n) as [Hlt | Hge].
  - replace (List.length d + 1 - n) with 0 by lia. reflexivity.
  - replace (List.length d + 1 - n) with 1 by lia.
    destruct (d ++ [x]); reflexivity.
Qed.

Lemma deque_append_length {A : Type} (n : nat) (d : list A) (x : A) :
  List.length d <= n -> List.length (deque_append n d x) <= n.
Proof.
  intros Hlen. rewrite deque_append_suffix by assumption.
  rewrite length_skipn. lia.
Qed.

Lemma deque_fold_suffix {A : Type} (n : nat) (xs : list A) :
  forall d : list A,
    List.length d <= n ->
    fold_left (deque_append n) xs d
    = skipn (List.length (d ++ xs) - n) (d ++ xs).
Proof.
  induction xs as [| x xs IH]; intros d Hlen.
  - cbn [fold_left]. rewrite app_nil_r.
    replace (List.length d - n) with 0 by lia. reflexivity.
  - cbn [fold_left].
    rewrite IH by (apply deque_append_length; assumption).
    rewrite deque_append_suffix by assumption.
    set (k := List.length (d ++ [x]) - n).
    assert (Hk : k <= List.length (d ++ [x])) by (subst k; lia).
    replace (skipn k (d ++ [x]) ++ xs) with (skipn k ((d ++ [x]) ++ xs)).
    2:{ rewrite skipn_app. replace (k - List.length (d ++ [x])) with 0 by lia.
        reflexivity. }
    rewrite skipn_skipn, length_skipn.
    rewrite <- app_assoc. cbn [app].
    f_equal. subst k. rewrite !length_app. cbn [List.length]. lia.
Qed.

(** *** Burst detection *)

Lemma time_diffs_step (e1 e2 : SocketError) (w : list SocketError) :
  time_diffs strptime (e1 :: e2 :: w)
  = match strptime (timestamp e1), strptime (timestamp e2),
          time_diffs strptime (e2 :: w) with
    | Some t1, Some t2, Some diffs => Some ((t2 - t1)%Z :: diffs)
    | _, _, _ => None
    end.
Proof. reflexivity. Qed.

Lemma gaps_step (t1 t2 : Z) (ts : list Z) :
  gaps (t1 :: t2 :: ts) = (t2 - t1)%Z :: gaps (t2 :: ts).
Proof. reflexivity. Qed.

Lemma time_diffs_parsed (w : list SocketError) :
  forall ts : list Z,
    map (fun e => strptime (timestamp e)) w = map Some ts ->
    time_diffs strptime w = Some (gaps ts).
Proof.
  induction w as [| e1 w IH]; intros ts H.
  - destruct ts; [reflexivity | discriminate H].
  - destruct ts as [| t1 ts]; [discriminate H |].
    cbn [map] in H. injection H as H1 H2.
    destruct w as [| e2 w'].
    + destruct ts; [reflexivity | discriminate H2].
    + destruct ts as [| t2 ts']; [discriminate H2 |].
      rewrite time_diffs_step, gaps_step, H1, (IH _ H2).
      cbn [map] in H2. injection H2 as H2 _. rewrite H2. reflexivity.
Qed.

Lemma time_diffs_unparseable (e : SocketError) (w : list SocketError) :
  In e w ->
  strptime (timestamp e) = None ->
  2 <= List.length w ->
  time_diffs strptime w = None.
Proof.
  induction w as [| e1 w IH]; intros Hin Hbad Hlen; [destruct Hin |].
  destruct w as [| e2 w']; [cbn in Hlen; lia |].
  rewrite time_diffs_step.
  destruct Hin as [-> | Hin]; [rewrite Hbad; reflexivity |].
  destruct (strptime (timestamp e1)); [| reflexivity].
  destruct w' as [| e3 w''].
  - destruct Hin as [-> | []]. rewrite Hbad. reflexivity.
  - rewrite (IH Hin Hbad) by (cbn [List.length]; lia).
    destruct (strptime (timestamp e2)); reflexivity.
Qed.

Lemma gap_under_60_iff (ts : list Z) :
  existsb (fun diff => (diff <? 60)%Z) (gaps ts) = true
  <-> exists (i : nat) (t1 t2 : Z),
        nth_error ts i = Some t1 /\ nth_error ts (S i) = Some t2
        /\ (t2 - t1 < 60)%Z.
Proof.
  induction ts as [| a ts IH].
  - split; [discriminate |].
    intros (i & t1 & t2 & H & _). destruct i; discriminate H.
  - destruct ts as [| b ts'].
    + split; [discriminate |].
      intros (i & t1 & t2 & _ & H & _). destruct i; discriminate H.
    + rewrite gaps_step. cbn [existsb]. rewrite orb_true_iff, IH. split.
      * intros [H | (i & t1 & t2 & H1 & H2 & H3)].
        -- exists 0, a, b. apply Z.ltb_lt in H. repeat split; assumption.
        -- exists (S i), t1, t2. repeat split; assumption.
      * intros (i & t1 & t2 & H1 & H2 & H3). destruct i as [| i].
        -- left. cbn in H1, H2. injection H1 as ->. injection H2 as ->.
           apply Z.ltb_lt. assumption.
        -- right. exists i, t1, t2. repeat split; assumption.
Qed.

(** The window that [analyze_socket_error] evaluates: the stored one with
    the record of the line appended. *)
Lemma analyze_socket_error_window (lm : LogMonitor) (line : string) :
  socket_errors (fst (analyze_socket_error strptime lm line))
  = deque_append 10 (socket_errors lm)
      {| timestamp := substring 0 19 line;
         full_error := line;
         count := List.length (socket_errors lm) + 1 |}.
Proof.
  unfold analyze_socket_error.
  repeat match goal with
         | |- context [if ?b then _ else _] => destruct b
         | |- context [match ?o with Some _ => _ | None => _ end] =>
             destruct o
         end; reflexivity.
Qed.

Lemma analyze_socket_error_result (lm : LogMonitor) (line : string) :
  snd (analyze_socket_error strptime lm line)
  = let w := socket_errors (fst (analyze_socket_error strptime lm line)) in
    if 3 <=? List.length w then
      match time_diffs strptime w with
      | Some diffs =>
          if existsb (fun diff => (diff <? 60)%Z) diffs
          then Some burst_signal else None
      | None => None
      end
    else None.
Proof.
  rewrite analyze_socket_error_window. unfold analyze_socket_error.
  cbn [socket_errors set_socket_errors].
  repeat match goal with
         | |- context [if ?b then _ else _] => destruct b
         | |- context [match ?o with Some _ => _ | None => _ end] =>
             destruct o
         end; reflexivity.
Qed.

(** C6. When every record of the evaluated window carries a timestamp that
    parses, to the times [ts] in order of arrival: with at least three
    records the evaluator returns the burst signal exactly when two
    neighbouring records are less than 60 seconds apart; in particular it
    returns the signal for [T, T+10, T+40] and nothing for
    [T, T+90, T+200]. *)
Theorem burst_signal_iff_gap_under_60
  (lm : LogMonitor) (line : string) (ts : list Z) :
  map (fun e => strptime (timestamp e))
      (socket_errors (fst (analyze_socket_error strptime lm line)))
  = map Some ts ->
  (3 <= List.length ts ->
   (snd (analyze_socket_error strptime lm line) = Some burst_signal
    <-> exists (i : nat) (t1 t2 : Z),
          nth_error ts i = Some t1 /\ nth_error ts (S i) = Some t2
          /\ (t2 - t1 < 60)%Z)
   /\ (snd (analyze_socket_error strptime lm line) = None
       <-> ~ exists (i : nat) (t1 t2 : Z),
               nth_error ts i = Some t1 /\ nth_error ts (S i) = Some t2
               /\ (t2 - t1 < 60)%Z))
  /\ (forall T : Z,
        ts = [T; (T + 10)%Z; (T + 40)%Z] ->
        snd (analyze_socket_error strptime lm line) = Some burst_signal)
  /\ (forall T : Z,
        ts = [T; (T + 90)%Z; (T + 200)%Z] ->
        snd (analyze_socket_error strptime lm line) = None).
Proof.
  intros Hts.
  assert (Hlen : List.length
                   (socket_errors (fst (analyze_socket_error strptime lm line)))
                 = List.length ts).
  { rewrite <- (length_map (fun e => strptime (timestamp e))), Hts.
    apply length_map. }
  rewrite analyze_socket_error_result. cbv zeta.
  rewrite Hlen, (time_diffs_parsed _ _ Hts).
  split; [| split].
  - intros H3. apply Nat.leb_le in H3. rewrite H3.
    rewrite <- gap_under_60_iff.
    destruct (existsb (fun diff => (diff <? 60)%Z) (gaps ts)).
    + split; split; congruence.
    + split; split; congruence.
  - intros T ->. cbn [List.length Nat.leb gaps existsb].
    replace (T + 10 - T <? 60)%Z with true
      by (symmetry; apply Z.ltb_lt; lia). reflexivity.
  - intros T ->. cbn [List.length Nat.leb gaps existsb].
    replace (T + 90 - T <? 60)%Z with false
      by (symmetry; apply Z.ltb_ge; lia).
    replace (T + 200 - (T + 90) <? 60)%Z with false
      by (symmetry; apply Z.ltb_ge; lia). reflexivity.
Qed.

Lemma record_lines_window (lines : list string) :
  forall lm : LogMonitor,
    exists recs : list SocketError,
      List.length recs = List.length lines
      /\ socket_errors (record_lines strptime lm lines)
         = fold_left (deque_append 10) recs (socket_errors lm).
Proof.
  induction lines as [| l lines IH]; intros lm.
  - exists []. split; reflexivity.
  - destruct (IH (fst (analyze_socket_error strptime lm l)))
      as (recs & Hlen & Hw).
    eexists (_ :: recs). split; [cbn [List.length]; rewrite Hlen; reflexivity |].
    change (record_lines strptime lm (l :: lines))
      with (record_lines strptime
              (fst (analyze_socket_error strptime lm l)) lines).
    rewrite Hw. cbn [fold_left].
    rewrite analyze_socket_error_window. reflexivity.
Qed.

(** A record stays in the window while fewer than ten records follow it. *)
Lemma record_survives_nine_appends
  (w recs : list SocketError) (e : SocketError) :
  List.length w <= 10 ->
  List.length recs <= 9 ->
  In e (fold_left (deque_append 10) recs (deque_append 10 w e)).
Proof.
  intros Hw Hrecs.
  rewrite deque_fold_suffix by (apply deque_append_length; assumption).
  assert (Hd : exists a, deque_append 10 w e = a ++ [e]).
  { rewrite deque_append_suffix by assumption. rewrite skipn_app.
    replace (List.length (w ++ [e]) - 10 - List.length w) with 0
      by (rewrite length_app; cbn [List.length]; lia).
    cbn [skipn]. eexists. reflexivity. }
  destruct Hd as [a Ha].
  pose proof (deque_append_length 10 w e Hw) as La.
  rewrite Ha in *. rewrite length_app in La. cbn [List.length] in La.
  rewrite <- app_assoc. cbn [app]. rewrite skipn_app.
  replace (List.length (a ++ e :: recs) - 10 - List.length a) with 0
    by (rewrite length_app; cbn [List.length]; lia).
  cbn [skipn]. apply in_or_app. right. left. reflexivity.
Qed.

(** C10, as the code has it.  A line whose first 19 characters do not parse
    gets no signal and no exception; its record enters the window all the
    same, and the evaluation of each of the next nine lines (at most eight
    lines [pre], then [l]) finds it there and returns no signal either,
    whatever their own timestamps are. *)
Theorem unparseable_timestamp_silences_window
  (lm : LogMonitor) (line : string) (pre : list string) :
  strptime (substring 0 19 line) = None ->
  List.length (socket_errors lm) <= 10 ->
  List.length pre <= 8 ->
  snd (analyze_socket_error strptime lm line) = None
  /\ forall l : string,
       snd (analyze_socket_error strptime
              (record_lines strptime
                 (fst (analyze_socket_error strptime lm line)) pre) l)
       = None.
Proof.
  intros Hbad Hw Hpre.
  set (bad := {| timestamp := substring 0 19 line;
                 full_error := line;
                 count := List.length (socket_errors lm) + 1 |}).
  assert (Hsilent : forall (m : LogMonitor) (l : string),
             In bad (socket_errors (fst (analyze_socket_error strptime m l)))
             -> snd (analyze_socket_error strptime m l) = None).
  { intros m l Hin. rewrite analyze_socket_error_result. cbv zeta.
    destruct (Nat.leb_spec 3
                (List.length
                   (socket_errors (fst (analyze_socket_error strptime m l)))))
      as [H3 | H3]; [| reflexivity].
    rewrite (time_diffs_unparseable bad) by (assumption || lia).
    reflexivity. }
  split.
  - apply Hsilent. rewrite analyze_socket_error_window. fold bad.
    apply (record_survives_nine_appends _ [] bad Hw). cbn. lia.
  - intros l. apply Hsilent.
    change (fst (analyze_socket_error strptime
                   (record_lines strptime
                      (fst (analyze_socket_error strptime lm line)) pre) l))
      with (record_lines strptime
              (record_lines strptime
                 (fst (analyze_socket_error strptime lm line)) pre) [l]).
    unfold record_lines. rewrite <- fold_left_app.
    destruct (record_lines_window (pre ++ [l])
                (fst (analyze_socket_error strptime lm line)))
      as (recs & Hlen & Hwin).
    unfold record_lines in Hwin. rewrite Hwin.
    rewrite analyze_socket_error_window. fold bad.
    apply record_survives_nine_appends; [assumption |].
    rewrite Hlen, length_app. cbn [List.length]. lia.
Qed.


(** *** The log cursor *)

Lemma drop_past_end (n : nat) :
  forall s : string, String.length s <= n -> drop n s = EmptyString.
Proof.
  induction n as [| n IH]; intros [| c s] H; cbn in *;
    try reflexivity; try lia.
  apply IH. lia.
Qed.

Lemma set_last_position_same (lm : LogMonitor) :
  set_last_position lm (last_position lm) = lm.
Proof. destruct lm; reflexivity. Qed.

(** [start_bot] empties [logs.txt] and leaves the monitor, and so the
    cursor, as it was. *)
Lemma start_bot_keeps_log_monitor (env : TickEnv) (w : BotWatchdog) :
  log_monitor (fst (fst (start_bot env w))) = log_monitor w
  /\ (logs_txt env <> Missing -> In TruncateLog (snd (start_bot env w))).
Proof.
  unfold start_bot. destruct (popen env), (logs_txt env); cbn;
    (split; [reflexivity | intros H; tauto || (exfalso; apply H; reflexivity)]).
Qed.

(** C3, as the code has it.  When the file is shorter than the stored
    offset the poll raises nothing, reads no line, records nothing and
    leaves the cursor at the stored offset; nothing sets it back to 0, and
    [start_bot], which empties the file, does not touch the monitor. *)
Theorem shrunk_file_is_not_reread (lm : LogMonitor) (bytes : string) :
  String.length bytes < last_position lm ->
  check_logs strptime lm (Content bytes) = (lm, None)
  /\ readlines (drop (last_position lm) bytes) = []
  /\ forall (env : TickEnv) (w : BotWatchdog),
       log_monitor (fst (fst (start_bot env w))) = log_monitor w.
Proof.
  intros H. unfold check_logs.
  rewrite drop_past_end by lia.
  rewrite Nat.max_l by lia.
  rewrite set_last_position_same. repeat split.
  intros env w. apply start_bot_keeps_log_monitor.
Qed.

(** C4.  Two error lines appended together: the poll returns the first,
    which names a critical error, puts the cursor at the end of the file and
    never classifies the second, which is in no later poll either. *)
Theorem early_return_drops_rest_of_batch :
  let first := "01-01-2024 10:00:00 - ERROR - RuntimeError: boom" in
  let second := "01-01-2024 10:00:01 - ERROR - second failure" in
  let r := check_logs strptime LogMonitor_init (Content sample_log) in
  readlines sample_log = [(first ++ nl)%string; (second ++ nl)%string]
  /\ contains "ERROR" (second ++ nl)%string = true
  /\ snd r = Some first
  /\ error_history (fst r) = [first]
  /\ last_position (fst r) = String.length sample_log
  /\ check_logs strptime (fst r) (Content sample_log) = (fst r, None).
Proof. vm_compute. repeat split. Qed.


(** *** The restart policy *)

Lemma Qgtb_true (a b : Q) : Qgtb a b = true <-> (b < a)%Q.
Proof.
  unfold Qgtb. rewrite negb_true_iff. split; intros H.
  - apply Qnot_le_lt. intros Hle. apply Qle_bool_iff in Hle. congruence.
  - destruct (Qle_bool a b) eqn:E; [| reflexivity].
    apply Qle_bool_iff in E. exfalso. exact (Qlt_not_le _ _ H E).
Qed.

Lemma Qgtb_false (a b : Q) : Qgtb a b = false <-> (a <= b)%Q.
Proof.
  unfold Qgtb. rewrite negb_false_iff. apply Qle_bool_iff.
Qed.

Lemma kills_or_launches_app (a b : list Event) :
  kills_or_launches (a ++ b) = kills_or_launches a || kills_or_launches b.
Proof. apply existsb_app. Qed.

Lemma popen_attempts_app (a b : list Event) :
  popen_attempts (a ++ b) = popen_attempts a + popen_attempts b.
Proof. unfold popen_attempts. rewrite filter_app. apply length_app. Qed.

Lemma storage_stage_quiet (env : TickEnv) (l : Loop) :
  kills_or_launches (snd (storage_stage env l)) = false
  /\ popen_attempts (snd (storage_stage env l)) = 0.
Proof.
  unfold storage_stage, check_storage.
  destruct (_ <=? _)%Z; [| split; reflexivity].
  destruct (disk_usage env) as [free |]; [| split; reflexivity].
  destruct (free <? _)%Z; split; reflexivity.
Qed.

Lemma check_bot_health_quiet (w : BotWatchdog) (p : ProcStatus) :
  kills_or_launches (snd (check_bot_health w p)) = false
  /\ popen_attempts (snd (check_bot_health w p)) = 0.
Proof.
  unfold check_bot_health.
  destruct (bot_process w); [| split; reflexivity].
  destruct p as [| | mem cpu |]; try (split; reflexivity).
  destruct (Qgtb mem 90), (Qgtb cpu 80); split; reflexivity.
Qed.

Lemma preamble_quiet (w : BotWatchdog) :
  kills_or_launches (preamble w) = false /\ popen_attempts (preamble w) = 0.
Proof.
  unfold preamble.
  destruct (truthy _), (contains _ _); split; reflexivity.
Qed.

Lemma popen_attempts_cons (e : Event) (ev : list Event) :
  popen_attempts (e :: ev)
  = (if is_popen e then 1 else 0) + popen_attempts ev.
Proof. unfold popen_attempts. cbn [filter]. destruct (is_popen e); reflexivity. Qed.

Lemma popen_attempts_terminate (pids : list Z) :
  popen_attempts (map Terminate pids) = 0.
Proof. induction pids as [| pid pids IH]; [reflexivity | exact IH]. Qed.

(** [kill_bot] clears the handle, touches nothing else and launches
    nothing. *)
Lemma kill_bot_effect (w : BotWatchdog) (k : KillResult) :
  fst (kill_bot w k) = set_bot_process w None
  /\ popen_attempts (snd (kill_bot w k)) = 0.
Proof.
  unfold kill_bot.
  destruct w as [[pid |] rc mx ri lr lm lci sm sci];
    cbn [bot_process fst snd]; [| split; reflexivity].
  split; [reflexivity |].
  destruct k as [cs | cs | cs]; rewrite ?popen_attempts_app;
    rewrite popen_attempts_terminate; reflexivity.
Qed.

(** The unhealthy branch inside the interval: nothing but the preamble. *)
Lemma unhealthy_stage_debounced (env : TickEnv) (w : BotWatchdog) :
  (time_now env - last_restart w <= restart_interval w)%Q ->
  unhealthy_stage env w = (w, preamble w, Continue).
Proof.
  intros H. unfold unhealthy_stage.
  rewrite (proj2 (Qgtb_false _ _) H). reflexivity.
Qed.

(** The unhealthy branch past the interval with the counter at the
    ceiling. *)
Lemma unhealthy_stage_ceiling (env : TickEnv) (w : BotWatchdog) :
  (restart_interval w < time_now env - last_restart w)%Q ->
  (max_restarts w <= restart_count w)%Z ->
  exists ev : list Event,
    unhealthy_stage env w = (w, ev ++ [SysExit 1], Exit 1)
    /\ kills_or_launches ev = false.
Proof.
  intros Ht Hc. unfold unhealthy_stage.
  rewrite (proj2 (Qgtb_true _ _) Ht).
  rewrite (proj2 (Z.ltb_ge _ _) Hc).
  eexists. split.
  - rewrite !app_assoc. reflexivity.
  - destruct (preamble_quiet w) as [Hq _]. unfold preamble in Hq.
    rewrite <- !app_assoc. rewrite !kills_or_launches_app in *.
    apply orb_false_iff in Hq. destruct Hq as [-> ->].
    destruct (truthy _); reflexivity.
Qed.

(** The unhealthy branch past the interval, below the ceiling, without a
    handle, when the launch fails: one more launch, and the watchdog is as
    before. *)
Lemma unhealthy_stage_launch_fails (env : TickEnv) (w : BotWatchdog) :
  (restart_interval w < time_now env - last_restart w)%Q ->
  (restart_count w < max_restarts w)%Z ->
  bot_process w = None ->
  popen env = None ->
  exists ev : list Event,
    unhealthy_stage env w = (w, ev, Continue) /\ popen_attempts ev = 1.
Proof.
  intros Ht Hc Hp Hl. unfold unhealthy_stage, kill_bot, start_bot.
  rewrite (proj2 (Qgtb_true _ _) Ht).
  rewrite (proj2 (Z.ltb_lt _ _) Hc), Hp, Hl.
  eexists. split; [reflexivity |].
  destruct (preamble_quiet w) as [_ Hq]. unfold preamble in Hq.
  rewrite popen_attempts_app in Hq.
  rewrite !popen_attempts_app.
  destruct (truthy _), (contains _ _), (logs_txt env); cbn in *; lia.
Qed.


(** An unhealthy pass inside the interval. *)
Lemma tick_debounced (env : TickEnv) (l : Loop) :
  unhealthy env l ->
  (time_now env - last_restart (self l) <= restart_interval (self l))%Q ->
  exists (sc : Z) (ev : list Event),
    tick strptime env l
    = ({| self := self l;
          log_check_counter := log_check_counter l;
          storage_check_counter := sc |}, ev, Continue)
    /\ kills_or_launches ev = false.
Proof.
  intros Hu Ht. unfold unhealthy in Hu. unfold tick.
  pose proof (storage_stage_quiet env l) as [Hs _].
  pose proof (check_bot_health_quiet (self l) (proc_status env)) as [Hh _].
  destruct (storage_stage env l) as [sc ev_s].
  destruct (check_bot_health (self l) (proc_status env)) as [h ev_h].
  cbn [fst snd] in Hu, Hs, Hh. subst h. cbn [negb].
  rewrite unhealthy_stage_debounced by assumption.
  eexists. eexists. split; [reflexivity |].
  rewrite !kills_or_launches_app, Hs, Hh.
  rewrite (proj1 (preamble_quiet (self l))). reflexivity.
Qed.

(** An unhealthy pass past the interval with the counter at the ceiling. *)
Lemma tick_ceiling (env : TickEnv) (l : Loop) :
  unhealthy env l ->
  (restart_interval (self l) < time_now env - last_restart (self l))%Q ->
  (max_restarts (self l) <= restart_count (self l))%Z ->
  exists (sc : Z) (ev : list Event),
    tick strptime env l
    = ({| self := self l;
          log_check_counter := log_check_counter l;
          storage_check_counter := sc |}, ev ++ [SysExit 1], Exit 1)
    /\ kills_or_launches ev = false.
Proof.
  intros Hu Ht Hc.
  destruct (unhealthy_stage_ceiling env (self l) Ht Hc) as (ev & Hst & Hq).
  unfold unhealthy in Hu. unfold tick.
  pose proof (storage_stage_quiet env l) as [Hs _].
  pose proof (check_bot_health_quiet (self l) (proc_status env)) as [Hh _].
  destruct (storage_stage env l) as [sc ev_s].
  destruct (check_bot_health (self l) (proc_status env)) as [h ev_h].
  cbn [fst snd] in Hu, Hs, Hh. subst h. cbn [negb]. rewrite Hst.
  exists sc, (ev_s ++ ev_h ++ ev). split.
  - rewrite <- !app_assoc. reflexivity.
  - rewrite !kills_or_launches_app, Hs, Hh, Hq. reflexivity.
Qed.

(** C2.  On a pass whose health check fails, at a reading of the clock no
    more than [restart_interval] after [last_restart], the loop goes on, the
    watchdog object (handle, counter, time of the last restart) is what it
    was, and the pass neither terminates nor launches a process, whatever
    the process status and the last recorded error are. *)
Theorem debounce_blocks_restart (env : TickEnv) (l : Loop) :
  unhealthy env l ->
  (time_now env - last_restart (self l) <= restart_interval (self l))%Q ->
  snd (tick strptime env l) = Continue
  /\ self (fst (fst (tick strptime env l))) = self l
  /\ kills_or_launches (snd (fst (tick strptime env l))) = false.
Proof.
  intros Hu Ht.
  destruct (tick_debounced env l Hu Ht) as (sc & ev & -> & Hq).
  cbn [fst snd self]. auto.
Qed.

(** C1, as the code has it.  With [restart_count] at [max_restarts], a pass
    whose health check fails never terminates or launches a process and
    leaves the watchdog object as it is.  If the clock reads more than
    [restart_interval] past [last_restart], the pass calls [sys.exit(1)] and
    the loop runs no further pass; if not, the pass only waits. *)
Theorem ceiling_exits_once_interval_passed (env : TickEnv) (l : Loop) :
  restart_count (self l) = max_restarts (self l) ->
  unhealthy env l ->
  kills_or_launches (snd (fst (tick strptime env l))) = false
  /\ self (fst (fst (tick strptime env l))) = self l
  /\ ((restart_interval (self l) < time_now env - last_restart (self l))%Q ->
      snd (tick strptime env l) = Exit 1
      /\ In (SysExit 1) (snd (fst (tick strptime env l)))
      /\ forall envs : list TickEnv,
           monitor_loop strptime (env :: envs) l = tick strptime env l)
  /\ ((time_now env - last_restart (self l) <= restart_interval (self l))%Q ->
      snd (tick strptime env l) = Continue).
Proof.
  intros Hc Hu.
  destruct (Qlt_le_dec (restart_interval (self l))
              (time_now env - last_restart (self l))) as [Ht | Ht].
  - assert (Hge : (max_restarts (self l) <= restart_count (self l))%Z) by lia.
    destruct (tick_ceiling env l Hu Ht Hge) as (sc & ev & Htick & Hq).
    split; [| split; [| split]].
    + rewrite Htick. cbn [fst snd].
      rewrite kills_or_launches_app, Hq. reflexivity.
    + rewrite Htick. reflexivity.
    + intros _. split; [| split].
      * rewrite Htick. reflexivity.
      * rewrite Htick. cbn [fst snd]. apply in_or_app. right. left.
        reflexivity.
      * intros envs. cbn [monitor_loop]. rewrite Htick. reflexivity.
    + intros Hle. exfalso. exact (Qlt_not_le _ _ Ht Hle).
  - destruct (tick_debounced env l Hu Ht) as (sc & ev & Htick & Hq).
    split; [| split; [| split]].
    + rewrite Htick. assumption.
    + rewrite Htick. reflexivity.
    + intros Hlt. exfalso. exact (Qlt_not_le _ _ Hlt Ht).
    + intros _. rewrite Htick. reflexivity.
Qed.

(** An unhealthy pass past the interval, below the ceiling, whose launch
    fails. *)
Lemma tick_launch_fails (env : TickEnv) (l : Loop) :
  bot_process (self l) = None ->
  (restart_count (self l) < max_restarts (self l))%Z ->
  popen env = None ->
  (restart_interval (self l) < time_now env - last_restart (self l))%Q ->
  exists (sc : Z) (ev : list Event),
    tick strptime env l
    = ({| self := self l;
          log_check_counter := log_check_counter l;
          storage_check_counter := sc |}, ev, Continue)
    /\ popen_attempts ev = 1.
Proof.
  intros Hp Hc Hl Ht.
  destruct (unhealthy_stage_launch_fails env (self l) Ht Hc Hp Hl)
    as (ev & Hst & Hn).
  unfold tick.
  pose proof (storage_stage_quiet env l) as [_ Hs].
  destruct (storage_stage env l) as [sc ev_s]. cbn [snd] in Hs.
  unfold check_bot_health. rewrite Hp. cbn [negb]. rewrite Hst.
  eexists. eexists. split; [reflexivity |].
  rewrite !popen_attempts_app, Hs, Hn. reflexivity.
Qed.

(** C5, as the code has it.  A launch that fails changes neither
    [restart_count] nor [last_restart].  So from a watchdog without a handle
    and below the ceiling, over any number of passes past the interval whose
    launches all fail, every pass launches again, the loop never exits and
    the watchdog object stays as it was. *)
Theorem launch_failures_retry_every_tick (envs : list TickEnv) (l : Loop) :
  bot_process (self l) = None ->
  (restart_count (self l) < max_restarts (self l))%Z ->
  (forall env : TickEnv,
     In env envs ->
     popen env = None
     /\ (restart_interval (self l) < time_now env - last_restart (self l))%Q)
  ->
  snd (monitor_loop strptime envs l) = Continue
  /\ self (fst (fst (monitor_loop strptime envs l))) = self l
  /\ popen_attempts (snd (fst (monitor_loop strptime envs l)))
     = List.length envs.
Proof.
  revert l. induction envs as [| env envs IH]; intros l Hp Hc Hall.
  - repeat split.
  - destruct (Hall env (or_introl eq_refl)) as [Hl Ht].
    destruct (tick_launch_fails env l Hp Hc Hl Ht) as (sc & ev & Htick & Hn).
    cbn [monitor_loop]. rewrite Htick.
    set (l1 := {| self := self l;
                  log_check_counter := log_check_counter l;
                  storage_check_counter := sc |}).
    specialize (IH l1 Hp Hc (fun e He => Hall e (or_intror He))).
    destruct (monitor_loop strptime envs l1) as [[l2 ev2] o2].
    cbn [fst snd] in *. destruct IH as (-> & -> & Hcount).
    repeat split.
    rewrite popen_attempts_app, Hn, Hcount. reflexivity.
Qed.

(** C7, as the code has it.  When the free-space query raises on a pass
    that checks storage, the error is logged and [check_storage] answers
    [False]: the scratch directories are purged.  Nothing else differs from
    the same pass with enough free space: same state after it, same
    outcome, same events after the three of the storage check. *)
Theorem storage_query_error_purges (env : TickEnv) (l : Loop) (free : Z) :
  disk_usage env = None ->
  (storage_check_interval (self l) <= storage_check_counter l + 1)%Z ->
  (min_free_space (storage_monitor (self l)) <= free)%Z ->
  let fine := set_disk_usage env (Some free) in
  storage_stage env l
  = (0%Z,
     [Log ERROR StorageCheckError; Log WARNING LowStorageCleaning;
      CleanDirectories])
  /\ storage_stage fine l = (0%Z, [])
  /\ fst (fst (tick strptime env l)) = fst (fst (tick strptime fine l))
  /\ snd (tick strptime env l) = snd (tick strptime fine l)
  /\ snd (fst (tick strptime env l))
     = [Log ERROR StorageCheckError; Log WARNING LowStorageCleaning;
        CleanDirectories]
       ++ snd (fst (tick strptime fine l)).
Proof.
  intros Hdu Hcnt Hfree fine.
  assert (Hbad : storage_stage env l
                 = (0%Z,
                    [Log ERROR StorageCheckError;
                     Log WARNING LowStorageCleaning; CleanDirectories])).
  { unfold storage_stage, check_storage.
    rewrite (proj2 (Z.leb_le _ _) Hcnt), Hdu. reflexivity. }
  assert (Hok : storage_stage fine l = (0%Z, [])).
  { unfold storage_stage, check_storage, fine. cbn [disk_usage set_disk_usage].
    rewrite (proj2 (Z.leb_le _ _) Hcnt), (proj2 (Z.ltb_ge _ _) Hfree).
    reflexivity. }
  split; [assumption | split; [assumption |]].
  unfold tick. rewrite Hbad, Hok.
  change (proc_status fine) with (proc_status env).
  change (unhealthy_stage fine (self l)) with (unhealthy_stage env (self l)).
  change (healthy_stage strptime fine (self l) (log_check_counter l))
    with (healthy_stage strptime env (self l) (log_check_counter l)).
  destruct (check_bot_health (self l) (proc_status env)) as [[|] ev_h];
    cbn [negb].
  - destruct (healthy_stage strptime env (self l) (log_check_counter l))
      as [[w lc] ev]. repeat split.
  - destruct (unhealthy_stage env (self l)) as [[w ev] [| code]];
      repeat split.
Qed.

(** C8.  On a pass whose health check succeeds, at a reading of the clock
    more than 3600 seconds after [last_restart], [restart_count] is 0 after
    the pass, and the loop goes on. *)
Theorem stability_amnesty_resets_count (env : TickEnv) (l : Loop) :
  healthy env l ->
  (3600 < time_now env - last_restart (self l))%Q ->
  restart_count (self (fst (fst (tick strptime env l)))) = 0%Z
  /\ snd (tick strptime env l) = Continue.
Proof.
  intros Hh Ht. unfold healthy in Hh. unfold tick.
  destruct (storage_stage env l) as [sc ev_s].
  destruct (check_bot_health (self l) (proc_status env)) as [h ev_h].
  cbn [fst] in Hh. subst h. cbn [negb].
  unfold healthy_stage.
  destruct (log_check_interval (self l) <=? log_check_counter l + 1)%Z.
  - destruct (check_logs strptime (log_monitor (self l)) (logs_txt env))
      as [lm critical_error].
    cbn [last_restart set_log_monitor].
    rewrite (proj2 (Qgtb_true _ _) Ht). split; reflexivity.
  - rewrite (proj2 (Qgtb_true _ _) Ht). split; reflexivity.
Qed.


(** *** More on the log monitor *)

Lemma analyze_socket_error_state (lm : LogMonitor) (line : string) :
  fst (analyze_socket_error strptime lm line)
  = set_socket_errors lm
      (deque_append 10 (socket_errors lm)
         {| timestamp := substring 0 19 line;
            full_error := line;
            count := List.length (socket_errors lm) + 1 |}).
Proof.
  unfold analyze_socket_error.
  repeat match goal with
         | |- context [if ?b then _ else _] => destruct b
         | |- context [match ?o with Some _ => _ | None => _ end] =>
             destruct o
         end; reflexivity.
Qed.

(** What the loop of [check_logs] leaves alone. *)
Lemma process_lines_keeps (lines : list string) :
  forall lm : LogMonitor,
    last_position (fst (process_lines strptime lm lines)) = last_position lm
    /\ critical_errors (fst (process_lines strptime lm lines))
       = critical_errors lm
    /\ log_file (fst (process_lines strptime lm lines)) = log_file lm.
Proof.
  induction lines as [| line rest IH]; intros lm; [repeat split |].
  cbn [process_lines].
  destruct (contains socket_marker line).
  - rewrite analyze_socket_error_state. repeat split.
  - destruct (contains "ERROR" line); [| apply IH].
    destruct (existsb _ _); [repeat split |].
    destruct (IH (set_error_history lm
                    (deque_append 100 (error_history lm) (strip line))))
      as (H1 & H2 & H3).
    rewrite H1, H2, H3. repeat split.
Qed.

(** One poll's loop inserts the records of the lines it reaches, through
    the bounded [append]. *)
Lemma process_lines_history (lines : list string) :
  forall lm : LogMonitor,
    error_history (fst (process_lines strptime lm lines))
    = fold_left (deque_append 100)
        (inserted_by_batch (critical_errors lm) lines) (error_history lm).
Proof.
  unfold inserted_by_batch.
  induction lines as [| line rest IH]; intros lm; [reflexivity |].
  cbn [process_lines reached]. unfold ends_batch at 1.
  destruct (contains socket_marker line) eqn:Es.
  - cbn [orb filter]. unfold is_error_line. rewrite Es.
    rewrite analyze_socket_error_state. reflexivity.
  - destruct (contains "ERROR" line) eqn:Ee; cbn [orb andb].
    + cbn [critical_errors set_error_history].
      destruct (existsb (fun err => contains err line) (critical_errors lm)).
      * cbn [filter]. unfold is_error_line. rewrite Es, Ee. reflexivity.
      * cbn [filter]. unfold is_error_line at 1. rewrite Es, Ee.
        cbn [orb map fold_left]. rewrite IH. reflexivity.
    + cbn [filter]. unfold is_error_line at 1. rewrite Es, Ee.
      cbn [orb]. apply IH.
Qed.

Lemma check_logs_history (lm : LogMonitor) (f : LogFile) :
  error_history (fst (check_logs strptime lm f))
  = fold_left (deque_append 100)
      (inserted_by_batch (critical_errors lm) (new_lines_of lm f))
      (error_history lm).
Proof.
  destruct f as [| | bytes]; try reflexivity.
  unfold check_logs, new_lines_of. rewrite process_lines_history.
  reflexivity.
Qed.

Lemma poll_all_history (files : list LogFile) :
  forall lm : LogMonitor,
    error_history (poll_all strptime lm files)
    = fold_left (deque_append 100) (inserted strptime lm files)
        (error_history lm).
Proof.
  induction files as [| f files IH]; intros lm; [reflexivity |].
  cbn [inserted]. rewrite fold_left_app, <- check_logs_history.
  apply IH.
Qed.

(** C9.  From a monitor whose history respects its bound, over any sequence
    of polls that insert more than 100 records in all, the error history is
    exactly the last 100 records inserted, in the order of insertion and as
    they were inserted (each is a line of the log, stripped); it is full,
    and whatever the next poll inserts goes to the end and pushes out as
    many of the oldest. *)
Theorem error_history_keeps_last_100
  (lm : LogMonitor) (files : list LogFile) :
  List.length (error_history lm) <= 100 ->
  100 < List.length (inserted strptime lm files) ->
  let h := error_history (poll_all strptime lm files) in
  h = skipn (List.length (inserted strptime lm files) - 100)
        (inserted strptime lm files)
  /\ List.length h = 100
  /\ forall f : LogFile,
       let new :=
         inserted_by_batch (critical_errors (poll_all strptime lm files))
           (new_lines_of (poll_all strptime lm files) f) in
       error_history (fst (check_logs strptime (poll_all strptime lm files) f))
       = skipn (List.length new) (h ++ new).
Proof.
  intros Hh Hxs h.
  assert (E : h = skipn (List.length (inserted strptime lm files) - 100)
                    (inserted strptime lm files)).
  { subst h. rewrite poll_all_history, deque_fold_suffix by assumption.
    rewrite skipn_app, length_app.
    rewrite skipn_all2 by lia. cbn [app]. f_equal. lia. }
  assert (L : List.length h = 100) by (rewrite E, length_skipn; lia).
  split; [exact E | split; [exact L |]].
  intros f new. rewrite check_logs_history. fold h. fold new.
  rewrite deque_fold_suffix by lia.
  rewrite length_app, L. f_equal. lia.
Qed.

Lemma process_lines_bounded (lines : list string) :
  forall lm : LogMonitor,
    bounded_monitor lm ->
    bounded_monitor (fst (process_lines strptime lm lines)).
Proof.
  induction lines as [| line rest IH]; intros lm [Hh Hs]; [split; assumption |].
  cbn [process_lines].
  destruct (contains socket_marker line).
  - rewrite analyze_socket_error_state. split; cbn.
    + apply deque_append_length. assumption.
    + apply deque_append_length. assumption.
  - destruct (contains "ERROR" line); [| apply IH; split; assumption].
    assert (Hb : bounded_monitor
                   (set_error_history lm
                      (deque_append 100 (error_history lm) (strip line)))).
    { split; cbn; [apply deque_append_length |]; assumption. }
    destruct (existsb _ _); [exact Hb | apply IH; exact Hb].
Qed.

Lemma check_logs_bounded (lm : LogMonitor) (f : LogFile) :
  bounded_monitor lm -> bounded_monitor (fst (check_logs strptime lm f)).
Proof.
  intros Hb. destruct f as [| | bytes]; cbn [check_logs fst]; try assumption.
  apply process_lines_bounded. exact Hb.
Qed.

Lemma string_length_app (a b : string) :
  String.length (a ++ b)%string = String.length a + String.length b.
Proof. induction a as [| c a IH]; cbn; [reflexivity | rewrite IH; reflexivity]. Qed.

Lemma drop_app (a b : string) : drop (String.length a) (a ++ b)%string = b.
Proof. induction a as [| c a IH]; cbn; [destruct b; reflexivity | exact IH]. Qed.

Lemma get_last_error_appended (lm : LogMonitor) (x : string) :
  get_last_error
    (set_error_history lm (deque_append 100 (error_history lm) x))
  = Some x.
Proof.
  unfold get_last_error. cbn [error_history set_error_history].
  assert (H : exists a, deque_append 100 (error_history lm) x = a ++ [x]).
  { unfold deque_append.
    destruct (Nat.ltb_spec (List.length (error_history lm)) 100) as [Hlt | Hge].
    - eexists. reflexivity.
    - destruct (error_history lm) as [| y h]; [cbn in Hge; lia |].
      exists h. reflexivity. }
  destruct H as [a ->].
  destruct a as [| y a]; [reflexivity |].
  cbn [app]. rewrite last_last. reflexivity.
Qed.

(** The cursor never moves back: after a poll it is the larger of the
    stored offset and the size of the file, and it is untouched when the
    file is missing or cannot be read. *)
Theorem cursor_never_moves_back
  (lm : LogMonitor) (f : LogFile) (bytes : string) :
  last_position lm <= last_position (fst (check_logs strptime lm f))
  /\ last_position (fst (check_logs strptime lm (Content bytes)))
     = Nat.max (last_position lm) (String.length bytes)
  /\ check_logs strptime lm Missing = (lm, None)
  /\ check_logs strptime lm Unreadable = (lm, None).
Proof.
  assert (H : forall b,
             last_position (fst (check_logs strptime lm (Content b)))
             = Nat.max (last_position lm) (String.length b)).
  { intros b. unfold check_logs.
    rewrite (proj1 (process_lines_keeps _ _)). reflexivity. }
  split; [| split; [apply H | split; reflexivity]].
  destruct f as [| | b]; [apply Nat.le_refl | apply Nat.le_refl |].
  rewrite H. apply Nat.le_max_l.
Qed.

(** After a poll of a file that reached at least to the cursor, a poll of
    the same file with more bytes appended hands to the classifier exactly
    the lines of the appended bytes, and a poll with nothing appended
    returns nothing and changes nothing. *)
Theorem poll_reads_only_appended_bytes
  (lm : LogMonitor) (bytes more : string) :
  last_position lm <= String.length bytes ->
  let lm1 := fst (check_logs strptime lm (Content bytes)) in
  check_logs strptime lm1 (Content (bytes ++ more)%string)
  = process_lines strptime
      (set_last_position lm1 (String.length (bytes ++ more)%string))
      (readlines more)
  /\ check_logs strptime lm1 (Content bytes) = (lm1, None).
Proof.
  intros Hle lm1.
  assert (Hpos : last_position lm1 = String.length bytes).
  { subst lm1. unfold check_logs.
    rewrite (proj1 (process_lines_keeps _ _)). cbn. lia. }
  split.
  - unfold check_logs. rewrite Hpos, drop_app.
    rewrite Nat.max_r by (rewrite string_length_app; lia). reflexivity.
  - unfold check_logs. rewrite Hpos, Nat.max_id.
    rewrite drop_past_end by lia.
    rewrite <- Hpos, set_last_position_same. reflexivity.
Qed.

(** From a new monitor, whatever the file is at each poll, the error
    history never holds more than 100 lines and the socket window never
    more than 10 records. *)
Theorem histories_stay_bounded (files : list LogFile) :
  bounded_monitor (poll_all strptime LogMonitor_init files).
Proof.
  assert (H : forall lm, bounded_monitor lm ->
                         bounded_monitor (poll_all strptime lm files)).
  { induction files as [| f files IH]; intros lm Hb; [exact Hb |].
    apply IH. apply check_logs_bounded. exact Hb. }
  apply H. split; cbn; lia.
Qed.

Lemma process_lines_result (lines : list string) :
  forall (lm : LogMonitor) (x : string),
    snd (process_lines strptime lm lines) = Some x ->
    exists (before : list string) (line : string) (after : list string),
      lines = before ++ line :: after
      /\ (forall l : string,
            In l before -> ends_batch (critical_errors lm) l = false)
      /\ get_last_error (fst (process_lines strptime lm lines))
         = Some (strip line)
      /\ ((contains socket_marker line = true /\ x = burst_signal)
          \/ (contains socket_marker line = false
              /\ contains "ERROR" line = true
              /\ existsb (fun err => contains err line) (critical_errors lm)
                 = true
              /\ x = strip line)).
Proof.
  induction lines as [| line rest IH]; intros lm x Hx; [discriminate Hx |].
  cbn [process_lines] in *.
  destruct (contains socket_marker line) eqn:Es.
  - exists [], line, rest. split; [reflexivity |].
    split; [intros l [] |].
    rewrite analyze_socket_error_state. split.
    + apply (get_last_error_appended lm (strip line)).
    + left. split; [exact Es |].
      rewrite analyze_socket_error_result in Hx. cbv zeta in Hx.
      destruct (3 <=? _); [| discriminate Hx].
      destruct (time_diffs strptime _); [| discriminate Hx].
      destruct (existsb _ _); [| discriminate Hx].
      injection Hx as <-. reflexivity.
  - destruct (contains "ERROR" line) eqn:Ee.
    + cbn [critical_errors set_error_history] in *.
      destruct (existsb (fun err => contains err line) (critical_errors lm))
        eqn:Ec.
      * exists [], line, rest. cbn [fst snd] in *. injection Hx as <-.
        split; [reflexivity |]. split; [intros l [] |].
        split; [apply get_last_error_appended |].
        right. repeat split; assumption.
      * destruct (IH _ x Hx) as (before & l0 & after & Heq & Hb & Hlast & Hcase).
        exists (line :: before), l0, after.
        split; [rewrite Heq; reflexivity |].
        split; [| split; [exact Hlast | exact Hcase]].
        intros l [<- | Hin]; [| exact (Hb l Hin)].
        unfold ends_batch. rewrite Es, Ee, Ec. reflexivity.
    + destruct (IH _ x Hx) as (before & l0 & after & Heq & Hb & Hlast & Hcase).
      exists (line :: before), l0, after.
      split; [rewrite Heq; reflexivity |].
      split; [| split; [exact Hlast | exact Hcase]].
      intros l [<- | Hin]; [| exact (Hb l Hin)].
      unfold ends_batch. rewrite Es, Ee. reflexivity.
Qed.

(** Whatever a poll returns was caused by a line of the batch it has just
    read: the first line at which the loop returns, which the poll has put
    at the end of the error history.  It is either a line with the socket
    marker, and the result is the burst signal, or a line with [ERROR] that
    names one of the critical errors, and the result is that line,
    stripped. *)
Theorem returned_error_is_last_error
  (lm : LogMonitor) (f : LogFile) (x : string) :
  snd (check_logs strptime lm f) = Some x ->
  exists (before : list string) (line : string) (after : list string),
    new_lines_of lm f = before ++ line :: after
    /\ (forall l : string,
          In l before -> ends_batch (critical_errors lm) l = false)
    /\ get_last_error (fst (check_logs strptime lm f)) = Some (strip line)
    /\ ((contains socket_marker line = true /\ x = burst_signal)
        \/ (contains socket_marker line = false
            /\ contains "ERROR" line = true
            /\ existsb (fun err => contains err line) (critical_errors lm)
               = true
            /\ x = strip line)).
Proof.
  intros Hx. destruct f as [| | bytes]; try discriminate Hx.
  unfold check_logs, new_lines_of in *.
  destruct (process_lines_result _ _ _ Hx)
    as (before & line & after & Heq & Hb & Hlast & Hcase).
  exists before, line, after. repeat split; assumption.
Qed.

(** A batch in which no line has the socket marker or [ERROR] moves the
    cursor and does nothing else. *)
Theorem quiet_batch_only_moves_cursor (lm : LogMonitor) (bytes : string) :
  (forall line : string,
     In line (readlines (drop (last_position lm) bytes)) ->
     contains socket_marker line = false /\ contains "ERROR" line = false) ->
  check_logs strptime lm (Content bytes)
  = (set_last_position lm (Nat.max (last_position lm) (String.length bytes)),
     None).
Proof.
  intros Hq. unfold check_logs.
  generalize (set_last_position lm
                (Nat.max (last_position lm) (String.length bytes))).
  induction (readlines (drop (last_position lm) bytes)) as [| line rest IH];
    intros m; [reflexivity |].
  cbn [process_lines].
  destruct (Hq line (or_introl eq_refl)) as [-> ->].
  apply IH. intros l0 Hin. apply Hq. right. exact Hin.
Qed.

(** With fewer than two records in the window a socket error gets no
    signal and no timestamp is parsed; the record is added. *)
Theorem first_two_socket_errors_never_signal
  (lm : LogMonitor) (line : string) :
  List.length (socket_errors lm) <= 1 ->
  snd (analyze_socket_error strptime lm line) = None
  /\ List.length (socket_errors (fst (analyze_socket_error strptime lm line)))
     = List.length (socket_errors lm) + 1.
Proof.
  intros Hlen.
  assert (Hw : List.length
                 (socket_errors (fst (analyze_socket_error strptime lm line)))
               = List.length (socket_errors lm) + 1).
  { rewrite analyze_socket_error_window. unfold deque_append.
    destruct (Nat.ltb_spec (List.length (socket_errors lm)) 10); [| lia].
    rewrite length_app. reflexivity. }
  split; [| exact Hw].
  rewrite analyze_socket_error_result. cbv zeta. rewrite Hw.
  destruct (Nat.leb_spec 3 (List.length (socket_errors lm) + 1)); [lia |].
  reflexivity.
Qed.

Lemma time_diffs_ext (w1 : list SocketError) :
  forall w2 : list SocketError,
    map timestamp w1 = map timestamp w2 ->
    time_diffs strptime w1 = time_diffs strptime w2.
Proof.
  induction w1 as [| a w1 IH]; intros [| b w2] H; try discriminate H;
    [reflexivity |].
  cbn [map] in H. injection H as Hab H.
  destruct w1 as [| a' w1], w2 as [| b' w2]; try discriminate H;
    [reflexivity |].
  rewrite !time_diffs_step, Hab, (IH _ H).
  cbn [map] in H. injection H as -> _. reflexivity.
Qed.

Lemma map_deque_append {A B : Type} (f : A -> B) (n : nat) (d : list A)
  (x : A) :
  map f (deque_append n d x) = deque_append n (map f d) (f x).
Proof.
  unfold deque_append. rewrite length_map.
  destruct (List.length d <? n).
  - rewrite map_app. reflexivity.
  - rewrite <- tl_map, map_app. reflexivity.
Qed.

Lemma record_lines_timestamps (lines : list string) :
  forall lm : LogMonitor,
    map timestamp (socket_errors (record_lines strptime lm lines))
    = fold_left (deque_append 10) (map (substring 0 19) lines)
        (map timestamp (socket_errors lm)).
Proof.
  induction lines as [| l lines IH]; intros lm; [reflexivity |].
  change (record_lines strptime lm (l :: lines))
    with (record_lines strptime
            (fst (analyze_socket_error strptime lm l)) lines).
  rewrite IH, analyze_socket_error_window, map_deque_append. reflexivity.
Qed.

(** Once ten socket errors have been recorded nothing older counts: the
    timestamps of the window are those of the last ten lines. *)
Lemma window_is_last_ten_lines (lm : LogMonitor) (lines : list string) :
  List.length (socket_errors lm) <= 10 ->
  List.length lines = 10 ->
  map timestamp (socket_errors (record_lines strptime lm lines))
  = map (substring 0 19) lines.
Proof.
  intros Hw Hl. rewrite record_lines_timestamps.
  rewrite deque_fold_suffix by (rewrite length_map; exact Hw).
  rewrite length_app, !length_map, Hl.
  replace (List.length (socket_errors lm) + 10 - 10)
    with (List.length (map timestamp (socket_errors lm)))
    by (rewrite length_map; lia).
  rewrite skipn_app, skipn_all, Nat.sub_diag. reflexivity.
Qed.

(** The evaluator forgets what is older than its window: after nine
    recorded lines the result for the tenth is the same whatever the window
    held before them, unparseable records included. *)
Theorem burst_window_forgets
  (lm lm' : LogMonitor) (lines : list string) (l : string) :
  List.length (socket_errors lm) <= 10 ->
  List.length (socket_errors lm') <= 10 ->
  List.length lines = 9 ->
  snd (analyze_socket_error strptime (record_lines strptime lm lines) l)
  = snd (analyze_socket_error strptime (record_lines strptime lm' lines) l).
Proof.
  intros Hw Hw' Hl.
  assert (Hsame : forall m : LogMonitor,
             List.length (socket_errors m) <= 10 ->
             map timestamp
               (socket_errors
                  (fst (analyze_socket_error strptime
                          (record_lines strptime m lines) l)))
             = map (substring 0 19) (lines ++ [l])).
  { intros m Hm.
    change (fst (analyze_socket_error strptime
                   (record_lines strptime m lines) l))
      with (record_lines strptime (record_lines strptime m lines) [l]).
    unfold record_lines. rewrite <- fold_left_app.
    apply (window_is_last_ten_lines m (lines ++ [l]) Hm).
    rewrite length_app, Hl. reflexivity. }
  pose proof (Hsame lm Hw) as H1. pose proof (Hsame lm' Hw') as H2.
  rewrite !analyze_socket_error_result. cbv zeta.
  rewrite (time_diffs_ext _ _ (eq_trans H1 (eq_sym H2))).
  rewrite <- (length_map timestamp), H1.
  rewrite <- (length_map timestamp
                (socket_errors
                   (fst (analyze_socket_error strptime
                           (record_lines strptime lm' lines) l)))), H2.
  reflexivity.
Qed.

(** *** More on the monitoring loop *)

(** What the healthy branch can do to the watchdog. *)
Lemma healthy_stage_effect (env : TickEnv) (w : BotWatchdog) (c : Z) :
  forall (w' : BotWatchdog) (c' : Z) (ev : list Event),
    healthy_stage strptime env w c = (w', c', ev) ->
    bot_process w' = bot_process w
    /\ last_restart w' = last_restart w
    /\ max_restarts w' = max_restarts w
    /\ (restart_count w' = restart_count w \/ restart_count w' = 0%Z)
    /\ kills_or_launches ev = false
    /\ popen_attempts ev = 0
    /\ (log_monitor w' <> log_monitor w ->
        (log_check_interval w <= c + 1)%Z).
Proof.
  intros w' c' ev. unfold healthy_stage.
  destruct (Z.leb_spec (log_check_interval w) (c + 1)) as [Hdue | Hnot].
  - destruct (check_logs strptime (log_monitor w) (logs_txt env))
      as [lm critical_error].
    cbn [last_restart set_log_monitor].
    destruct (Qgtb _ _), (truthy critical_error); intros [= <- <- <-]; cbn;
      repeat split; auto.
  - destruct (Qgtb _ _); intros [= <- <- <-]; cbn; repeat split; auto;
      intros H; exfalso; apply H; reflexivity.
Qed.

(** What the unhealthy branch can do to the watchdog. *)
Lemma unhealthy_stage_effect (env : TickEnv) (w : BotWatchdog) :
  forall (w' : BotWatchdog) (ev : list Event) (o : Outcome),
    unhealthy_stage env w = (w', ev, o) ->
    max_restarts w' = max_restarts w
    /\ log_monitor w' = log_monitor w
    /\ (restart_count w' = restart_count w
        \/ ((restart_count w < max_restarts w)%Z
            /\ restart_count w' = (restart_count w + 1)%Z))
    /\ popen_attempts ev <= 1
    /\ (popen_attempts ev <> 0 ->
        (restart_interval w < time_now env - last_restart w)%Q
        /\ (restart_count w < max_restarts w)%Z)
    /\ (o = Continue
        \/ (o = Exit 1
            /\ (max_restarts w <= restart_count w)%Z
            /\ (restart_interval w < time_now env - last_restart w)%Q)).
Proof.
  intros w' ev o. unfold unhealthy_stage.
  destruct (Qgtb (time_now env - last_restart w) (restart_interval w)) eqn:Et.
  - apply Qgtb_true in Et.
    destruct (Z.ltb_spec (restart_count w) (max_restarts w)) as [Hc | Hc].
    + pose proof (kill_bot_effect w (kill_result env)) as [Hk1 Hk2].
      destruct (kill_bot w (kill_result env)) as [w1 evk].
      cbn [fst snd] in Hk1, Hk2. subst w1. unfold start_bot.
      destruct (popen env); cbn [fst snd];
        intros [= <- <- <-]; cbn [max_restarts log_monitor restart_count
                                    set_last_restart set_restart_count
                                    set_bot_process];
        repeat (rewrite popen_attempts_app || rewrite popen_attempts_cons);
        rewrite Hk2;
        destruct (truthy _), (contains _ _), (logs_txt env); cbn;
        repeat split; auto; lia.
    + intros [= <- <- <-]. rewrite !popen_attempts_app.
      destruct (truthy _), (contains _ _); cbn; repeat split; auto; lia.
  - intros [= <- <- <-].
    destruct (truthy _), (contains _ _); cbn; repeat split; auto; lia.
Qed.

Lemma popen_successes_app (a b : list Event) :
  popen_successes (a ++ b) = popen_successes a + popen_successes b.
Proof. unfold popen_successes. rewrite filter_app. apply length_app. Qed.

Lemma terminated_pids_app (a b : list Event) :
  terminated_pids (a ++ b) = terminated_pids a ++ terminated_pids b.
Proof.
  induction a as [| e a IH]; [reflexivity |].
  destruct e; cbn [app terminated_pids]; rewrite IH; reflexivity.
Qed.

Lemma terminated_pids_terminate (pids : list Z) :
  terminated_pids (map Terminate pids) = pids.
Proof.
  induction pids as [| pid pids IH]; [reflexivity |].
  cbn [map terminated_pids]. rewrite IH. reflexivity.
Qed.

Lemma popen_successes_terminate (pids : list Z) :
  popen_successes (map Terminate pids) = 0.
Proof. induction pids as [| pid pids IH]; [reflexivity | exact IH]. Qed.

(** Events among which there is no [Terminate] and no [Popen]. *)
Lemma quiet_events (ev : list Event) :
  kills_or_launches ev = false ->
  terminated_pids ev = [] /\ popen_successes ev = 0
  /\ popen_attempts ev = 0.
Proof.
  induction ev as [| e ev IH]; intros H; [repeat split |].
  cbn [kills_or_launches existsb] in H. apply orb_false_iff in H.
  destruct H as [He Hev]. destruct (IH Hev) as (IH1 & IH2 & IH3).
  destruct e; try discriminate He; repeat split; assumption.
Qed.

(** What [kill_bot] terminates: the parent only when the block runs
    through. *)
Lemma kill_bot_terminated (w : BotWatchdog) (k : KillResult) :
  terminated_pids (snd (kill_bot w k))
  = match bot_process w with
    | None => []
    | Some old =>
        match k with
        | KillDone children => children ++ [old]
        | KillNoSuchProcess children => children
        | KillError children => children
        end
    end
  /\ popen_successes (snd (kill_bot w k)) = 0.
Proof.
  unfold kill_bot. destruct (bot_process w) as [old |]; [| split; reflexivity].
  cbn [snd].
  destruct k as [cs | cs | cs];
    rewrite ?terminated_pids_app, ?popen_successes_app,
      terminated_pids_terminate, popen_successes_terminate;
    [| | rewrite app_nil_r]; split; reflexivity.
Qed.

(** The unhealthy branch past the interval and below the ceiling: the
    watchdog and the events in terms of [kill_bot] and of what [Popen]
    gives. *)
Lemma unhealthy_stage_restart (env : TickEnv) (w : BotWatchdog) :
  (restart_interval w < time_now env - last_restart w)%Q ->
  (restart_count w < max_restarts w)%Z ->
  exists before after : list Event,
    unhealthy_stage env w
    = (match popen env with
       | Some pid =>
           set_last_restart
             (set_restart_count (set_bot_process w (Some pid))
                (restart_count w + 1))
             (time_now env)
       | None => set_bot_process w None
       end,
       before ++ snd (kill_bot w (kill_result env)) ++ after
       ++ [Popen (popen env)] ++
       match popen env with
       | Some pid =>
           [Log INFO (BotStarted pid);
            Log INFO (BotRestarted (restart_count w + 1))]
       | None => [Log ERROR FailedToStart]
       end,
       Continue)
    /\ kills_or_launches before = false
    /\ kills_or_launches after = false.
Proof.
  intros Ht Hc. unfold unhealthy_stage.
  rewrite (proj2 (Qgtb_true _ _) Ht), (proj2 (Z.ltb_lt _ _) Hc).
  pose proof (kill_bot_effect w (kill_result env)) as [Hk _].
  destruct (kill_bot w (kill_result env)) as [w1 evk].
  cbn [fst snd] in *. subst w1. unfold start_bot.
  exists (preamble w ++ [Log WARNING AttemptingRestart]),
    (clean_directories
     ++ match logs_txt env with
        | Missing => []
        | _ => [TruncateLog]
        end).
  split; [| split].
  - unfold preamble. destruct (popen env) as [pid |];
      cbn [fst snd set_bot_process restart_count];
      rewrite <- !app_assoc; reflexivity.
  - rewrite kills_or_launches_app, (proj1 (preamble_quiet w)). reflexivity.
  - destruct (logs_txt env); reflexivity.
Qed.

(** The pass when the health check fails, in terms of its branch. *)
Lemma tick_unhealthy_eq (env : TickEnv) (l : Loop) :
  unhealthy env l ->
  forall (w : BotWatchdog) (ev : list Event) (o : Outcome),
    unhealthy_stage env (self l) = (w, ev, o) ->
    exists (sc : Z) (pre post : list Event),
      tick strptime env l
      = ({| self := w;
            log_check_counter := log_check_counter l;
            storage_check_counter := sc |}, pre ++ ev ++ post, o)
      /\ kills_or_launches pre = false /\ popen_attempts pre = 0
      /\ kills_or_launches post = false /\ popen_attempts post = 0.
Proof.
  intros Hu w ev o Hst. unfold unhealthy in Hu. unfold tick.
  pose proof (storage_stage_quiet env l) as [Hs1 Hs2].
  pose proof (check_bot_health_quiet (self l) (proc_status env)) as [Hh1 Hh2].
  destruct (storage_stage env l) as [sc ev_s].
  destruct (check_bot_health (self l) (proc_status env)) as [h ev_h].
  cbn [fst snd] in *. subst h. cbn [negb]. rewrite Hst.
  exists sc, (ev_s ++ ev_h).
  destruct o as [| code].
  - exists [Sleep 1]. rewrite <- !app_assoc.
    rewrite kills_or_launches_app, popen_attempts_app, Hs1, Hs2, Hh1, Hh2.
    repeat split.
  - exists []. rewrite app_nil_r, <- !app_assoc.
    rewrite kills_or_launches_app, popen_attempts_app, Hs1, Hs2, Hh1, Hh2.
    repeat split.
Qed.

(** The pass when the health check succeeds, in terms of its branch. *)
Lemma tick_healthy_eq (env : TickEnv) (l : Loop) :
  healthy env l ->
  forall (w : BotWatchdog) (lc : Z) (ev : list Event),
    healthy_stage strptime env (self l) (log_check_counter l) = (w, lc, ev) ->
    exists (sc : Z) (pre : list Event),
      tick strptime env l
      = ({| self := w; log_check_counter := lc;
            storage_check_counter := sc |}, pre ++ ev ++ [Sleep 1], Continue)
      /\ kills_or_launches pre = false /\ popen_attempts pre = 0.
Proof.
  intros Hh w lc ev Hst. unfold healthy in Hh. unfold tick.
  pose proof (storage_stage_quiet env l) as [Hs1 Hs2].
  pose proof (check_bot_health_quiet (self l) (proc_status env)) as [Hh1 Hh2].
  destruct (storage_stage env l) as [sc ev_s].
  destruct (check_bot_health (self l) (proc_status env)) as [h ev_h].
  cbn [fst snd] in *. subst h. cbn [negb]. rewrite Hst.
  exists sc, (ev_s ++ ev_h). rewrite <- !app_assoc.
  rewrite kills_or_launches_app, popen_attempts_app, Hs1, Hs2, Hh1, Hh2.
  repeat split.
Qed.

Lemma health_cases (env : TickEnv) (l : Loop) :
  healthy env l \/ unhealthy env l.
Proof.
  unfold healthy, unhealthy.
  destruct (fst (check_bot_health (self l) (proc_status env))); auto.
Qed.

(** What one pass can do, whichever branch it takes. *)
Lemma tick_effect (env : TickEnv) (l : Loop) :
  forall (l' : Loop) (ev : list Event) (o : Outcome),
    tick strptime env l = (l', ev, o) ->
    max_restarts (self l') = max_restarts (self l)
    /\ (restart_count (self l') = restart_count (self l)
        \/ ((restart_count (self l) < max_restarts (self l))%Z
            /\ restart_count (self l') = (restart_count (self l) + 1)%Z)
        \/ restart_count (self l') = 0%Z)
    /\ popen_attempts ev <= 1
    /\ (popen_attempts ev <> 0 ->
        unhealthy env l
        /\ (restart_interval (self l)
            < time_now env - last_restart (self l))%Q
        /\ (restart_count (self l) < max_restarts (self l))%Z)
    /\ (o = Continue
        \/ (o = Exit 1
            /\ unhealthy env l
            /\ (max_restarts (self l) <= restart_count (self l))%Z
            /\ (restart_interval (self l)
                < time_now env - last_restart (self l))%Q))
    /\ (log_monitor (self l') <> log_monitor (self l) ->
        healthy env l
        /\ (log_check_interval (self l) <= log_check_counter l + 1)%Z).
Proof.
  intros l' ev o Htick.
  destruct (health_cases env l) as [Hh | Hu].
  - destruct (healthy_stage strptime env (self l) (log_check_counter l))
      as [[w lc] ev1] eqn:Hst.
    destruct (tick_healthy_eq env l Hh w lc ev1 Hst)
      as (sc & pre & Heq & Hk & Hp).
    rewrite Heq in Htick. injection Htick as <- <- <-.
    destruct (healthy_stage_effect env (self l) _ w lc ev1 Hst)
      as (_ & _ & Hm & Hc & _ & Hp1 & Hlog).
    cbn [self]. rewrite !popen_attempts_app, Hp, Hp1.
    change (popen_attempts [Sleep 1]) with 0.
    split; [exact Hm |].
    split; [destruct Hc as [-> | ->]; auto |].
    split; [lia |].
    split; [intros H; exfalso; apply H; reflexivity |].
    split; [left; reflexivity |].
    intros H. split; [exact Hh | apply Hlog; exact H].
  - destruct (unhealthy_stage env (self l)) as [[w ev1] o1] eqn:Hst.
    destruct (tick_unhealthy_eq env l Hu w ev1 o1 Hst)
      as (sc & pre & post & Heq & Hk & Hp & Hk' & Hp').
    rewrite Heq in Htick. injection Htick as <- <- <-.
    destruct (unhealthy_stage_effect env (self l) w ev1 o1 Hst)
      as (Hm & Hlog & Hc & Hle & Hcond & Ho).
    cbn [self]. rewrite !popen_attempts_app, Hp, Hp'.
    split; [exact Hm |].
    split; [destruct Hc as [-> | [? ->]]; auto |].
    split; [lia |].
    split.
    { intros H. destruct Hcond as [? ?]; [lia |]. auto. }
    split.
    { destruct Ho as [-> | (-> & ? & ?)]; auto. }
    intros H. exfalso. apply H. exact Hlog.
Qed.

(** While the child runs, whatever its memory and CPU percentages are and
    whatever the log holds, the pass neither terminates nor launches a
    process, does not exit, and keeps the handle and the time of the last
    restart. *)
Theorem running_child_is_never_restarted
  (env : TickEnv) (l : Loop) (pid : Z) (mem cpu : Q) :
  bot_process (self l) = Some pid ->
  proc_status env = Running mem cpu ->
  snd (tick strptime env l) = Continue
  /\ kills_or_launches (snd (fst (tick strptime env l))) = false
  /\ bot_process (self (fst (fst (tick strptime env l)))) = Some pid
  /\ last_restart (self (fst (fst (tick strptime env l))))
     = last_restart (self l).
Proof.
  intros Hp Hs.
  assert (Hh : healthy env l).
  { unfold healthy, check_bot_health. rewrite Hp, Hs. reflexivity. }
  destruct (healthy_stage strptime env (self l) (log_check_counter l))
    as [[w lc] ev] eqn:Hst.
  destruct (tick_healthy_eq env l Hh w lc ev Hst)
    as (sc & pre & -> & Hk & _).
  destruct (healthy_stage_effect env (self l) _ w lc ev Hst)
    as (Hb & Hl & _ & _ & Hk1 & _).
  cbn [fst snd self]. rewrite !kills_or_launches_app, Hk, Hk1, Hb, Hl.
  repeat split. exact Hp.
Qed.

(** The loop exits only through the ceiling: a pass that exits does so with
    status 1, on a failed health check, with [restart_count] at or above
    [max_restarts] and more than [restart_interval] after the last
    restart. *)
Theorem exit_only_at_ceiling (env : TickEnv) (l : Loop) (code : Z) :
  snd (tick strptime env l) = Exit code ->
  code = 1%Z
  /\ unhealthy env l
  /\ (max_restarts (self l) <= restart_count (self l))%Z
  /\ (restart_interval (self l) < time_now env - last_restart (self l))%Q.
Proof.
  intros Ho.
  destruct (tick strptime env l) as [[l' ev] o] eqn:Htick.
  cbn [snd] in Ho. subst o.
  destruct (tick_effect env l l' ev (Exit code) Htick)
    as (_ & _ & _ & _ & [Hc | (Hc & Hu & Hm & Ht)] & _);
    [discriminate Hc |].
  injection Hc as ->. repeat split; assumption.
Qed.

(** A restart that succeeds is recorded: on a failed health check, past the
    interval and below the ceiling, when [Popen] gives a child, the handle
    is the new child, [restart_count] is one more, [last_restart] is the
    reading of the clock and exactly one launch is made.  What is
    terminated is what [kill_bot] gets through: with a handle, the children
    reached and then the parent, the parent only if no exception ends the
    block; nothing without a handle. *)
Theorem successful_restart_is_recorded
  (env : TickEnv) (l : Loop) (pid : Z) :
  unhealthy env l ->
  (restart_interval (self l) < time_now env - last_restart (self l))%Q ->
  (restart_count (self l) < max_restarts (self l))%Z ->
  popen env = Some pid ->
  snd (tick strptime env l) = Continue
  /\ bot_process (self (fst (fst (tick strptime env l)))) = Some pid
  /\ restart_count (self (fst (fst (tick strptime env l))))
     = (restart_count (self l) + 1)%Z
  /\ last_restart (self (fst (fst (tick strptime env l)))) = time_now env
  /\ popen_attempts (snd (fst (tick strptime env l))) = 1
  /\ terminated_pids (snd (fst (tick strptime env l)))
     = match bot_process (self l) with
       | None => []
       | Some old =>
           match kill_result env with
           | KillDone children => children ++ [old]
           | KillNoSuchProcess children => children
           | KillError children => children
           end
       end.
Proof.
  intros Hu Ht Hc Hl.
  destruct (unhealthy_stage_restart env (self l) Ht Hc)
    as (before & after & Hst & Hb & Ha).
  rewrite Hl in Hst.
  destruct (tick_unhealthy_eq env l Hu _ _ _ Hst)
    as (sc & pre & post & -> & Hk & _ & Hk' & _).
  destruct (quiet_events _ Hk) as (T1 & _ & P1).
  destruct (quiet_events _ Hk') as (T2 & _ & P2).
  destruct (quiet_events _ Hb) as (T3 & _ & P3).
  destruct (quiet_events _ Ha) as (T4 & _ & P4).
  destruct (kill_bot_terminated (self l) (kill_result env)) as [T5 _].
  destruct (kill_bot_effect (self l) (kill_result env)) as [_ P5].
  cbn [fst snd self].
  repeat (split; [reflexivity |]). split.
  - rewrite !popen_attempts_app, P1, P2, P3, P4, P5. reflexivity.
  - rewrite !terminated_pids_app, T1, T2, T3, T4, T5.
    cbn [terminated_pids app]. rewrite !app_nil_r. reflexivity.
Qed.

(** A restart whose launch fails leaves no handle, whatever handle was held
    and however [kill_bot] ended: the handle is cleared, [restart_count]
    and [last_restart] are as before, the loop goes on, and every health
    check of the state it leaves fails. *)
Theorem failed_restart_leaves_no_handle (env : TickEnv) (l : Loop) :
  unhealthy env l ->
  (restart_interval (self l) < time_now env - last_restart (self l))%Q ->
  (restart_count (self l) < max_restarts (self l))%Z ->
  popen env = None ->
  snd (tick strptime env l) = Continue
  /\ bot_process (self (fst (fst (tick strptime env l)))) = None
  /\ restart_count (self (fst (fst (tick strptime env l))))
     = restart_count (self l)
  /\ last_restart (self (fst (fst (tick strptime env l))))
     = last_restart (self l)
  /\ popen_attempts (snd (fst (tick strptime env l))) = 1
  /\ forall env' : TickEnv,
       unhealthy env' (fst (fst (tick strptime env l))).
Proof.
  intros Hu Ht Hc Hl.
  destruct (unhealthy_stage_restart env (self l) Ht Hc)
    as (before & after & Hst & Hb & Ha).
  rewrite Hl in Hst.
  destruct (tick_unhealthy_eq env l Hu _ _ _ Hst)
    as (sc & pre & post & -> & Hk & _ & Hk' & _).
  destruct (quiet_events _ Hk) as (_ & _ & P1).
  destruct (quiet_events _ Hk') as (_ & _ & P2).
  destruct (quiet_events _ Hb) as (_ & _ & P3).
  destruct (quiet_events _ Ha) as (_ & _ & P4).
  destruct (kill_bot_effect (self l) (kill_result env)) as [_ P5].
  cbn [fst snd self].
  repeat (split; [reflexivity |]). split.
  - rewrite !popen_attempts_app, P1, P2, P3, P4, P5. reflexivity.
  - intros env'. reflexivity.
Qed.

(** [restart_count] stays between 0 and [max_restarts], which is never
    changed, over any number of passes. *)
Theorem restart_count_stays_within_ceiling (envs : list TickEnv) (l : Loop) :
  (0 <= restart_count (self l) <= max_restarts (self l))%Z ->
  (0 <= restart_count (self (fst (fst (monitor_loop strptime envs l))))
   <= max_restarts (self l))%Z
  /\ max_restarts (self (fst (fst (monitor_loop strptime envs l))))
     = max_restarts (self l).
Proof.
  revert l. induction envs as [| env envs IH]; intros l Hinv.
  - cbn. split; [exact Hinv | reflexivity].
  - cbn [monitor_loop].
    destruct (tick strptime env l) as [[l1 ev1] o1] eqn:Htick.
    destruct (tick_effect env l l1 ev1 o1 Htick) as (Hm & Hc & _).
    assert (Hinv1 : (0 <= restart_count (self l1) <= max_restarts (self l1))%Z)
      by (rewrite Hm; lia).
    destruct o1 as [| code].
    + specialize (IH l1 Hinv1).
      destruct (monitor_loop strptime envs l1) as [[l2 ev2] o2].
      cbn [fst snd] in *. rewrite Hm in IH. exact IH.
    + cbn [fst snd]. rewrite Hm in Hinv1. split; [exact Hinv1 | exact Hm].
Qed.

(** A pass launches at most once, and only on a failed health check, past
    the interval and below the ceiling. *)
Theorem launch_only_when_policy_allows (env : TickEnv) (l : Loop) :
  popen_attempts (snd (fst (tick strptime env l))) <> 0 ->
  popen_attempts (snd (fst (tick strptime env l))) = 1
  /\ unhealthy env l
  /\ (restart_interval (self l) < time_now env - last_restart (self l))%Q
  /\ (restart_count (self l) < max_restarts (self l))%Z.
Proof.
  intros Hn.
  destruct (tick strptime env l) as [[l' ev] o] eqn:Htick.
  cbn [fst snd] in *.
  destruct (tick_effect env l l' ev o Htick) as (_ & _ & Hle & Hcond & _).
  destruct (Hcond Hn) as (Hu & Ht & Hc).
  repeat split; try assumption. lia.
Qed.

(** The log monitor changes only on a pass whose health check succeeds and
    whose log counter is due; a failed health check never reads the log. *)
Theorem log_is_read_only_when_due (env : TickEnv) (l : Loop) :
  log_monitor (self (fst (fst (tick strptime env l))))
  <> log_monitor (self l) ->
  healthy env l
  /\ (log_check_interval (self l) <= log_check_counter l + 1)%Z.
Proof.
  intros Hn.
  destruct (tick strptime env l) as [[l' ev] o] eqn:Htick.
  cbn [fst snd] in *.
  destruct (tick_effect env l l' ev o Htick) as (_ & _ & _ & _ & _ & Hlog).
  exact (Hlog Hn).
Qed.

(** The storage part of a pass purges the scratch directories exactly when
    the storage counter is due and the query fails or reports less than
    [min_free_space]. *)
Theorem purge_iff_due_and_not_ok (env : TickEnv) (l : Loop) :
  existsb is_clean (snd (storage_stage env l)) = true
  <-> (storage_check_interval (self l) <= storage_check_counter l + 1)%Z
      /\ (disk_usage env = None
          \/ exists free : Z,
               disk_usage env = Some free
               /\ (free < min_free_space (storage_monitor (self l)))%Z).
Proof.
  unfold storage_stage, check_storage.
  destruct (Z.leb_spec (storage_check_interval (self l))
              (storage_check_counter l + 1)) as [Hdue | Hnot].
  - destruct (disk_usage env) as [free |].
    + destruct (Z.ltb_spec free (min_free_space (storage_monitor (self l))))
        as [Hlow | Hok]; cbn.
      * split; [intros _ | reflexivity].
        split; [exact Hdue | right; exists free; split; [reflexivity | exact Hlow]].
      * split; [discriminate |].
        intros (_ & [H | (f & [= <-] & H)]); [discriminate H | lia].
    + cbn. split; [intros _; split; [exact Hdue | left; reflexivity] |
                   reflexivity].
  - cbn. split; [discriminate | intros [H _]; lia].
Qed.

Lemma not_running_is_unhealthy (env : TickEnv) (l : Loop) :
  is_running (proc_status env) = false -> unhealthy env l.
Proof.
  intros H. unfold unhealthy, check_bot_health.
  destruct (bot_process (self l)); [| reflexivity].
  destruct (proc_status env); try reflexivity. discriminate H.
Qed.

(** On a failed health check the counter grows by the launches of the pass
    that gave a child, and there is one only below the ceiling. *)
Lemma tick_unhealthy_count (env : TickEnv) (l : Loop) :
  unhealthy env l ->
  restart_count (self (fst (fst (tick strptime env l))))
  = (restart_count (self l)
     + Z.of_nat (popen_successes (snd (fst (tick strptime env l)))))%Z
  /\ (popen_successes (snd (fst (tick strptime env l))) <> 0 ->
      (restart_count (self l) < max_restarts (self l))%Z)
  /\ popen_successes (snd (fst (tick strptime env l))) <= 1
  /\ max_restarts (self (fst (fst (tick strptime env l))))
     = max_restarts (self l).
Proof.
  intros Hu.
  assert (Hst : exists (w : BotWatchdog) (ev : list Event) (o : Outcome),
             unhealthy_stage env (self l) = (w, ev, o)
             /\ restart_count w
                = (restart_count (self l) + Z.of_nat (popen_successes ev))%Z
             /\ (popen_successes ev <> 0 ->
                 (restart_count (self l) < max_restarts (self l))%Z)
             /\ popen_successes ev <= 1
             /\ max_restarts w = max_restarts (self l)).
  { destruct (Qlt_le_dec (restart_interval (self l))
                (time_now env - last_restart (self l))) as [Ht | Ht].
    - destruct (Z.lt_ge_cases (restart_count (self l))
                  (max_restarts (self l))) as [Hc | Hc].
      + destruct (unhealthy_stage_restart env (self l) Ht Hc)
          as (before & after & Hst & Hb & Ha).
        destruct (quiet_events _ Hb) as (_ & S1 & _).
        destruct (quiet_events _ Ha) as (_ & S2 & _).
        destruct (kill_bot_terminated (self l) (kill_result env)) as [_ S3].
        eexists. eexists. eexists. split; [exact Hst |].
        rewrite !popen_successes_app, S1, S2, S3.
        destruct (popen env) as [pid |]; cbn; repeat split; auto; lia.
      + destruct (unhealthy_stage_ceiling env (self l) Ht Hc)
          as (ev & Hst & Hq).
        destruct (quiet_events _ Hq) as (_ & S1 & _).
        eexists. eexists. eexists. split; [exact Hst |].
        rewrite popen_successes_app, S1. cbn. repeat split; lia.
    - eexists. eexists. eexists.
      split; [exact (unhealthy_stage_debounced env (self l) Ht) |].
      destruct (quiet_events _ (proj1 (preamble_quiet (self l))))
        as (_ & S1 & _).
      rewrite S1. cbn. repeat split; lia. }
  destruct Hst as (w & ev & o & Hst & Hcount & Hpos & Hone & Hmax).
  destruct (tick_unhealthy_eq env l Hu w ev o Hst)
    as (sc & pre & post & -> & Hk & _ & Hk' & _).
  destruct (quiet_events _ Hk) as (_ & S1 & _).
  destruct (quiet_events _ Hk') as (_ & S2 & _).
  cbn [fst snd self]. rewrite !popen_successes_app, S1, S2.
  rewrite Nat.add_0_l, Nat.add_0_r.
  split; [exact Hcount | split; [exact Hpos | split; [exact Hone | exact Hmax]]].
Qed.

(** The ceiling over a run.  Over any number of passes on which the child
    is never found running, [restart_count] grows by exactly the number of
    launches that gave a child, so these are at most [max_restarts] minus
    the count at the start, however many passes there are and whatever
    their times. *)
Theorem restarts_of_dying_child_are_bounded
  (envs : list TickEnv) (l : Loop) :
  (forall env : TickEnv, In env envs -> is_running (proc_status env) = false)
  ->
  (restart_count (self l) <= max_restarts (self l))%Z ->
  restart_count (self (fst (fst (monitor_loop strptime envs l))))
  = (restart_count (self l)
     + Z.of_nat
         (popen_successes (snd (fst (monitor_loop strptime envs l)))))%Z
  /\ (Z.of_nat (popen_successes (snd (fst (monitor_loop strptime envs l))))
      <= max_restarts (self l) - restart_count (self l))%Z.
Proof.
  revert l. induction envs as [| env envs IH]; intros l Hall Hle.
  - cbn. split; lia.
  - cbn [monitor_loop].
    pose proof (tick_unhealthy_count env l
                  (not_running_is_unhealthy env l
                     (Hall env (or_introl eq_refl))))
      as (Hcount & Hpos & Hone & Hmax).
    destruct (tick strptime env l) as [[l1 ev1] o1].
    cbn [fst snd] in Hcount, Hpos, Hone, Hmax.
    assert (Hle1 : (restart_count (self l1) <= max_restarts (self l1))%Z).
    { rewrite Hmax, Hcount.
      destruct (popen_successes ev1) as [| n] eqn:E; [lia |].
      assert (H : S n <> 0) by discriminate. specialize (Hpos H). lia. }
    destruct o1 as [| code].
    + specialize (IH l1 (fun e He => Hall e (or_intror He)) Hle1).
      destruct (monitor_loop strptime envs l1) as [[l2 ev2] o2].
      cbn [fst snd] in *. destruct IH as [IH1 IH2].
      rewrite popen_successes_app, Nat2Z.inj_add.
      rewrite Hmax in IH2. split; lia.
    + cbn [fst snd]. rewrite Hmax in Hle1. split; [exact Hcount | lia].
Qed.

End WatchdogProperties.

(** ** Properties of the purge *)

(** A purge that gets through reclaims the sizes of the files of the
    directories that exist, leaves those directories empty and does not
    create one that does not exist; a second purge then reclaims nothing,
    logs nothing and changes nothing. *)
Theorem purge_is_idempotent (s s' : Scratch) (n : Z) (logged : bool) :
  clean_directories_on s = Some (s', n, logged) ->
  clean_directories_on s' = Some (s', 0%Z, false)
  /\ n = (match downloads_path s with
          | Present sizes _ => fold_left Z.add sizes 0
          | Absent => 0
          end
          + match cache_path s with
            | Present sizes _ => fold_left Z.add sizes 0
            | Absent => 0
            end)%Z
  /\ (downloads_path s = Absent <-> downloads_path s' = Absent)
  /\ (cache_path s = Absent <-> cache_path s' = Absent)
  /\ (forall sizes ok, downloads_path s' = Present sizes ok -> sizes = [])
  /\ (forall sizes ok, cache_path s' = Present sizes ok -> sizes = []).
Proof.
  unfold clean_directories_on, clean_directory.
  destruct s as [[| ds [|]] [| cs [|]]]; cbn; intros [= <- <- <-]; cbn;
    repeat split; try reflexivity; try discriminate; try lia;
    intros sizes ok [= <- <-]; reflexivity.
Qed.

(** ** Properties of the chat cache *)

Section ChatCacheProperties.

Variable Chat : Type.

Lemma Qltb_true (a b : Q) : Qltb a b = true <-> (a < b)%Q.
Proof.
  unfold Qltb. rewrite negb_true_iff. split; intros H.
  - apply Qnot_le_lt. intros Hle. apply Qle_bool_iff in Hle. congruence.
  - destruct (Qle_bool b a) eqn:E; [| reflexivity].
    apply Qle_bool_iff in E. exfalso. exact (Qlt_not_le _ _ H E).
Qed.

Lemma Qltb_false (a b : Q) : Qltb a b = false <-> (b <= a)%Q.
Proof. unfold Qltb. rewrite negb_false_iff. apply Qle_bool_iff. Qed.

Lemma cache_get_set_same (c : ChatCacheDict Chat) (k : Z) (v : Q * Chat) :
  cache_get (cache_set c k v) k = Some v.
Proof. cbn. rewrite Z.eqb_refl. reflexivity. Qed.

Lemma cache_get_set_other (c : ChatCacheDict Chat) (k k' : Z)
  (v : Q * Chat) :
  k' <> k -> cache_get (cache_set c k v) k' = cache_get c k'.
Proof.
  intros Hne. cbn.
  destruct (Z.eqb_spec k k') as [-> | _]; [contradiction Hne; reflexivity |].
  induction c as [| [j w] c IH]; [reflexivity |].
  cbn. destruct (Z.eqb_spec j k) as [-> | Hjk]; cbn.
  - destruct (Z.eqb_spec k k') as [-> | _];
      [contradiction Hne; reflexivity | exact IH].
  - rewrite IH. reflexivity.
Qed.

(** Insert then look up: when a call has asked [app] and returned its
    answer, every call for the same chat whose clock reads less than the TTL
    after it returns the same answer without asking [app], whatever [app]
    would say by then, and leaves the cache as it is. *)
Theorem fetched_chat_is_served_from_cache
  (c c1 : ChatCacheDict Chat) (t0 t1 : Q) (app app' : Z -> option Chat)
  (chat_id : Z) (d : Chat) :
  get_chat_cached c t0 app chat_id = (c1, Some d, [chat_id]) ->
  (t1 - t0 < inject_Z CHAT_CACHE_TTL)%Q ->
  get_chat_cached c1 t1 app' chat_id = (c1, Some d, []).
Proof.
  intros Hfirst Hfresh.
  assert (Hc1 : c1 = cache_set c chat_id (t0, d)).
  { unfold get_chat_cached in Hfirst.
    destruct (cache_get c chat_id) as [[t d0] |].
    - destruct (Qltb _ _); [discriminate Hfirst |].
      destruct (app chat_id); [| discriminate Hfirst].
      injection Hfirst as <- <-. reflexivity.
    - destruct (app chat_id); [| discriminate Hfirst].
      injection Hfirst as <- <-. reflexivity. }
  subst c1. unfold get_chat_cached at 1.
  rewrite cache_get_set_same.
  rewrite (proj2 (Qltb_true _ _) Hfresh). reflexivity.
Qed.

(** An entry as old as the TTL or older is not served: [app] is asked; its
    answer replaces the entry, stamped with the reading of the clock, and
    when it raises the old entry stays. *)
Theorem stale_entry_is_refetched
  (c : ChatCacheDict Chat) (t0 t1 : Q) (app : Z -> option Chat)
  (chat_id : Z) (d0 : Chat) :
  cache_get c chat_id = Some (t0, d0) ->
  (inject_Z CHAT_CACHE_TTL <= t1 - t0)%Q ->
  get_chat_cached c t1 app chat_id
  = match app chat_id with
    | Some d1 => (cache_set c chat_id (t1, d1), Some d1, [chat_id])
    | None => (c, None, [chat_id])
    end
  /\ cache_get (fst (fst (get_chat_cached c t1 app chat_id))) chat_id
     = match app chat_id with
       | Some d1 => Some (t1, d1)
       | None => Some (t0, d0)
       end.
Proof.
  intros Hget Hstale. unfold get_chat_cached. rewrite Hget.
  rewrite (proj2 (Qltb_false _ _) Hstale).
  destruct (app chat_id) as [d1 |]; cbn [fst].
  - rewrite cache_get_set_same. split; reflexivity.
  - split; [reflexivity | exact Hget].
Qed.

(** A call never changes what the cache holds for another chat. *)
Theorem other_chats_are_untouched
  (c : ChatCacheDict Chat) (t : Q) (app : Z -> option Chat)
  (chat_id other : Z) :
  other <> chat_id ->
  cache_get (fst (fst (get_chat_cached c t app chat_id))) other
  = cache_get c other.
Proof.
  intros Hne. unfold get_chat_cached.
  destruct (cache_get c chat_id) as [[t0 d0] |];
    [destruct (Qltb _ _); [reflexivity |] |];
    (destruct (app chat_id); cbn [fst];
     [apply cache_get_set_other; exact Hne | reflexivity]).
Qed.

End ChatCacheProperties.

(** ** Properties of the search for the bot process *)

Lemma contains_of_prefix_app (x y : string) :
  forall s : string, prefix (x ++ y)%string s = true -> contains y s = true.
Proof.
  induction x as [| c x IH]; intros s H.
  - change (prefix y s = true) in H.
    destruct s; cbn [contains]; rewrite H; reflexivity.
  - destruct s as [| c' s]; [discriminate H |].
    cbn [append prefix] in H. destruct (ascii_dec c c'); [| discriminate H].
    cbn [contains]. rewrite (IH s H). apply orb_true_r.
Qed.

Lemma contains_app_right (x y : string) :
  forall s : string, contains (x ++ y)%string s = true -> contains y s = true.
Proof.
  induction s as [| c s IH]; intros H.
  - cbn [contains] in H. rewrite orb_false_r in H.
    exact (contains_of_prefix_app x y _ H).
  - cbn [contains] in H. apply orb_true_iff in H. destruct H as [H | H].
    + exact (contains_of_prefix_app x y _ H).
    + cbn [contains]. rewrite (IH H). apply orb_true_r.
Qed.

(** The second test of the scan never decides: a command line is taken for
    the bot exactly when it contains [AnonXMusic]. *)
Theorem matches_bot_is_one_test (p : ProcInfo) :
  matches_bot p = contains "AnonXMusic" (cmdline_of p).
Proof.
  unfold matches_bot.
  destruct (contains "AnonXMusic" (cmdline_of p)) eqn:E; [reflexivity |].
  destruct (contains "python3 -m AnonXMusic" (cmdline_of p)) eqn:E2;
    [| reflexivity].
  apply (contains_app_right "python3 -m " "AnonXMusic") in E2. congruence.
Qed.

Lemma scan_processes_found (procs : list ProcInfo) :
  forall (last last' : option Z) (pid : Z),
    scan_processes last procs = (last', Some pid) ->
    last' = Some pid
    /\ exists p : ProcInfo,
         In p procs /\ info_pid p = pid /\ matches_bot p = true
         /\ reopen p = Opened.
Proof.
  induction procs as [| p rest IH]; intros last last' pid H;
    [discriminate H |].
  cbn [scan_processes] in H.
  destruct (matches_bot p) eqn:Em.
  - destruct (reopen p) eqn:Er.
    + injection H as <- <-. split; [reflexivity |].
      exists p. repeat split; auto. left. reflexivity.
    + destruct (IH _ _ _ H) as (Hl & q & Hin & Hq).
      split; [exact Hl |]. exists q. split; [right; exact Hin | exact Hq].
    + discriminate H.
  - destruct (IH _ _ _ H) as (Hl & q & Hin & Hq).
    split; [exact Hl |]. exists q. split; [right; exact Hin | exact Hq].
Qed.

(** A process that is returned is the one remembered afterwards, and it is
    either the remembered pid found running, or a process of the scan whose
    command line matches and that could be opened. *)
Theorem returned_process_is_remembered
  (last last' : option Z) (lk : PidLookup) (procs : option (list ProcInfo))
  (pid : Z) :
  get_bot_process last lk procs = (last', Some pid) ->
  last' = Some pid
  /\ ((last = Some pid /\ pid <> 0%Z /\ lk = LookupRunning)
      \/ exists (ps : list ProcInfo) (p : ProcInfo),
           procs = Some ps /\ In p ps /\ info_pid p = pid
           /\ matches_bot p = true /\ reopen p = Opened).
Proof.
  intros H.
  assert (Hscan : forall l0,
             match procs with
             | Some ps => scan_processes l0 ps
             | None => (l0, None)
             end = (last', Some pid) ->
             last' = Some pid
             /\ exists (ps : list ProcInfo) (p : ProcInfo),
                  procs = Some ps /\ In p ps /\ info_pid p = pid
                  /\ matches_bot p = true /\ reopen p = Opened).
  { intros l0 Hs. destruct procs as [ps |]; [| discriminate Hs].
    destruct (scan_processes_found ps _ _ _ Hs) as (Hl & p & Hp).
    split; [exact Hl |]. exists ps, p. split; [reflexivity | exact Hp]. }
  unfold get_bot_process in H.
  destruct last as [q |].
  - destruct (Z.eqb_spec q 0) as [-> | Hq].
    + destruct (Hscan _ H) as [Hl Hex]. split; [exact Hl | right; exact Hex].
    + destruct lk.
      * injection H as <- <-. split; [reflexivity |]. left.
        repeat split. exact Hq.
      * destruct (Hscan _ H) as [Hl Hex]. split; [exact Hl | right; exact Hex].
      * destruct (Hscan _ H) as [Hl Hex]. split; [exact Hl | right; exact Hex].
      * discriminate H.
  - destruct (Hscan _ H) as [Hl Hex]. split; [exact Hl | right; exact Hex].
Qed.

(** The scan returns the first matching process that can be opened:
    processes before it that do not match, or that match and have vanished,
    are passed over. *)
Theorem scan_returns_first_openable_match
  (last : option Z) (before after : list ProcInfo) (p : ProcInfo) :
  (forall q : ProcInfo,
     In q before -> matches_bot q = false \/ reopen q = Vanished) ->
  matches_bot p = true ->
  reopen p = Opened ->
  scan_processes last (before ++ p :: after)
  = (Some (info_pid p), Some (info_pid p)).
Proof.
  revert last. induction before as [| q before IH]; intros last Hb Hm Ho.
  - cbn. rewrite Hm, Ho. reflexivity.
  - cbn [app scan_processes].
    assert (Hrest : forall r, In r before ->
                              matches_bot r = false \/ reopen r = Vanished)
      by (intros r Hr; apply Hb; right; exact Hr).
    destruct (Hb q (or_introl eq_refl)) as [Hq | Hq].
    + rewrite Hq. apply IH; assumption.
    + rewrite Hq. destruct (matches_bot q); apply IH; assumption.
Qed.

Lemma last_cons_default {A : Type} (l : list A) :
  forall a d : A, List.last (a :: l) d = List.last l a.
Proof.
  induction l as [| b l IH]; intros a d; [reflexivity |].
  change (List.last (a :: b :: l) d) with (List.last (b :: l) d).
  rewrite (IH b d), (IH b a). reflexivity.
Qed.

(** When no process can be returned the scan returns none; the remembered
    pid is then that of the last matching process that vanished, or the one
    held before when nothing matched. *)
Theorem scan_without_openable_match
  (last : option Z) (procs : list ProcInfo) :
  (forall q : ProcInfo,
     In q procs -> matches_bot q = false \/ reopen q = Vanished) ->
  snd (scan_processes last procs) = None
  /\ fst (scan_processes last procs)
     = match filter matches_bot procs with
       | [] => last
       | q :: qs => Some (info_pid (List.last qs q))
       end.
Proof.
  revert last. induction procs as [| p rest IH]; intros last Hall.
  - split; reflexivity.
  - assert (Hrest : forall r, In r rest ->
                              matches_bot r = false \/ reopen r = Vanished)
      by (intros r Hr; apply Hall; right; exact Hr).
    cbn [scan_processes filter].
    destruct (matches_bot p) eqn:Em.
    + destruct (Hall p (or_introl eq_refl)) as [Hp | Hp]; [congruence |].
      rewrite Hp. destruct (IH (Some (info_pid p)) Hrest) as [H1 H2].
      split; [exact H1 |]. rewrite H2.
      destruct (filter matches_bot rest) as [| q qs]; [reflexivity |].
      rewrite last_cons_default. reflexivity.
    + apply IH. exact Hrest.
Qed.

(** ** The properties on the sample inputs *)

Lemma error_history_witness :
  100 < List.length
          (inserted strptime_dmy_hms LogMonitor_init
             [Content (error_log 60); Content (error_log 101)])
  /\ error_history
       (poll_all strptime_dmy_hms LogMonitor_init
          [Content (error_log 60); Content (error_log 101)])
     = skipn 1
         (inserted strptime_dmy_hms LogMonitor_init
            [Content (error_log 60); Content (error_log 101)])
  /\ List.length
       (error_history
          (poll_all strptime_dmy_hms LogMonitor_init
             [Content (error_log 60); Content (error_log 101)]))
     = 100.
Proof.
  assert (H0 : List.length (error_history LogMonitor_init) <= 100)
    by (cbn; lia).
  assert (H1 : 100 < List.length
                       (inserted strptime_dmy_hms LogMonitor_init
                          [Content (error_log 60); Content (error_log 101)]))
    by (vm_compute; lia).
  split; [exact H1 |].
  pose proof (error_history_keeps_last_100 strptime_dmy_hms LogMonitor_init
                [Content (error_log 60); Content (error_log 101)] H0 H1)
    as (E & L & _).
  split; [| exact L].
  replace 1
    with (List.length
            (inserted strptime_dmy_hms LogMonitor_init
               [Content (error_log 60); Content (error_log 101)]) - 100)
    by (vm_compute; reflexivity).
  exact E.
Defined.

Lemma burst_signal_witness :
  snd (analyze_socket_error strptime_dmy_hms
         (record_lines strptime_dmy_hms LogMonitor_init [line_t0; line_t10])
         line_t40)
  = Some burst_signal
  /\ snd (analyze_socket_error strptime_dmy_hms
            (record_lines strptime_dmy_hms LogMonitor_init
               [line_t0; line_t90])
            line_t200)
     = None.
Proof.
  split.
  - refine (proj1 (proj2
              (burst_signal_iff_gap_under_60 strptime_dmy_hms
                 (record_lines strptime_dmy_hms LogMonitor_init
                    [line_t0; line_t10])
                 line_t40
                 [63839786400; 63839786400 + 10; 63839786400 + 40]%Z _))
              63839786400%Z eq_refl).
    vm_compute. reflexivity.
  - refine (proj2 (proj2
              (burst_signal_iff_gap_under_60 strptime_dmy_hms
                 (record_lines strptime_dmy_hms LogMonitor_init
                    [line_t0; line_t90])
                 line_t200
                 [63839786400; 63839786400 + 90; 63839786400 + 200]%Z _))
              63839786400%Z eq_refl).
    vm_compute. reflexivity.
Defined.

Lemma unparseable_timestamp_witness :
  strptime_dmy_hms (substring 0 19 line_unstamped) = None
  /\ snd (analyze_socket_error strptime_dmy_hms LogMonitor_init
            line_unstamped) = None
  /\ forall l : string,
       snd (analyze_socket_error strptime_dmy_hms
              (record_lines strptime_dmy_hms
                 (fst (analyze_socket_error strptime_dmy_hms LogMonitor_init
                         line_unstamped))
                 [line_t0; line_t10]) l)
       = None.
Proof.
  split; [vm_compute; reflexivity |].
  apply (unparseable_timestamp_silences_window strptime_dmy_hms
           LogMonitor_init line_unstamped [line_t0; line_t10]).
  - vm_compute. reflexivity.
  - cbn. lia.
  - cbn. lia.
Defined.

(** Against C10 as stated: after an unstamped line, the third of three
    stamped lines 10 and 30 seconds apart gets no signal, and gets one when
    the unstamped record is taken out of the window. *)
Lemma unparseable_record_poisons_window :
  ~ unparseable_records_ignored strptime_dmy_hms
      (record_lines strptime_dmy_hms LogMonitor_init
         [line_unstamped; line_t0; line_t10])
      line_t40.
Proof.
  unfold unparseable_records_ignored. vm_compute. discriminate.
Qed.

Lemma shrunk_file_witness :
  String.length sample_log < last_position monitor_past_end
  /\ check_logs strptime_dmy_hms monitor_past_end (Content sample_log)
     = (monitor_past_end, None).
Proof.
  assert (H : String.length sample_log < last_position monitor_past_end)
    by (vm_compute; lia).
  split; [exact H |].
  exact (proj1 (shrunk_file_is_not_reread strptime_dmy_hms monitor_past_end
                  sample_log H)).
Defined.

(** Against C3 as stated: with the cursor at 200 and a file of 94 bytes the
    poll is not the poll from offset 0, which returns the first line. *)
Lemma cursor_not_reset_on_shrunk_file :
  ~ truncation_resets_cursor strptime_dmy_hms monitor_past_end sample_log.
Proof.
  intros H.
  assert (Hlt : String.length sample_log < last_position monitor_past_end)
    by (vm_compute; lia).
  specialize (H Hlt). vm_compute in H. discriminate H.
Qed.

Lemma debounce_witness :
  unhealthy env_crash_after_30s loop_two_restarts
  /\ (time_now env_crash_after_30s - last_restart (self loop_two_restarts)
      <= restart_interval (self loop_two_restarts))%Q
  /\ snd (tick strptime_dmy_hms env_crash_after_30s loop_two_restarts)
     = Continue
  /\ self (fst (fst (tick strptime_dmy_hms env_crash_after_30s
                       loop_two_restarts)))
     = self loop_two_restarts
  /\ kills_or_launches
       (snd (fst (tick strptime_dmy_hms env_crash_after_30s
                    loop_two_restarts)))
     = false.
Proof.
  assert (Hu : unhealthy env_crash_after_30s loop_two_restarts)
    by reflexivity.
  assert (Ht : (time_now env_crash_after_30s
                - last_restart (self loop_two_restarts)
                <= restart_interval (self loop_two_restarts))%Q)
    by (unfold Qle; cbn; lia).
  split; [exact Hu | split; [exact Ht |]].
  exact (debounce_blocks_restart strptime_dmy_hms env_crash_after_30s
           loop_two_restarts Hu Ht).
Defined.

Lemma ceiling_witness :
  snd (tick strptime_dmy_hms env_crash_after_100s loop_at_ceiling) = Exit 1
  /\ In (SysExit 1)
       (snd (fst (tick strptime_dmy_hms env_crash_after_100s
                    loop_at_ceiling)))
  /\ forall envs : list TickEnv,
       monitor_loop strptime_dmy_hms (env_crash_after_100s :: envs)
         loop_at_ceiling
       = tick strptime_dmy_hms env_crash_after_100s loop_at_ceiling.
Proof.
  assert (Hc : restart_count (self loop_at_ceiling)
               = max_restarts (self loop_at_ceiling)) by reflexivity.
  assert (Hu : unhealthy env_crash_after_100s loop_at_ceiling)
    by reflexivity.
  assert (Ht : (restart_interval (self loop_at_ceiling)
                < time_now env_crash_after_100s
                  - last_restart (self loop_at_ceiling))%Q)
    by (unfold Qlt; cbn; lia).
  exact (proj1 (proj2 (proj2
           (ceiling_exits_once_interval_passed strptime_dmy_hms
              env_crash_after_100s loop_at_ceiling Hc Hu)))
           Ht).
Defined.

(** Against C1 as stated: five restarts recorded, the last one 30 seconds
    ago; the child is gone and the pass does not exit. *)
Lemma ceiling_waits_inside_interval :
  ~ ceiling_exits_on_unhealthy_tick strptime_dmy_hms env_crash_after_30s
      loop_at_ceiling.
Proof.
  intros H. specialize (H eq_refl eq_refl). vm_compute in H. discriminate H.
Qed.

Lemma launch_failures_witness :
  snd (monitor_loop strptime_dmy_hms failing_launches loop_never_started)
  = Continue
  /\ self (fst (fst (monitor_loop strptime_dmy_hms failing_launches
                       loop_never_started)))
     = self loop_never_started
  /\ popen_attempts
       (snd (fst (monitor_loop strptime_dmy_hms failing_launches
                    loop_never_started)))
     = List.length failing_launches.
Proof.
  apply (launch_failures_retry_every_tick strptime_dmy_hms
           failing_launches loop_never_started).
  - reflexivity.
  - cbn. lia.
  - intros env Hin. cbn in Hin.
    repeat (destruct Hin as [<- | Hin];
            [split; [reflexivity | unfold Qlt; cbn; lia] |]).
    destruct Hin.
Defined.

(** Against C5 as stated: six launches fail one second apart; all six are
    attempted, which is more than [max_restarts]. *)
Lemma launch_failures_exceed_ceiling :
  ~ launch_failures_reach_ceiling strptime_dmy_hms failing_launches
      loop_never_started.
Proof.
  intros H.
  assert (Hall : forall env, In env failing_launches -> popen env = None).
  { intros env Hin. cbn in Hin.
    repeat (destruct Hin as [<- | Hin]; [reflexivity |]). destruct Hin. }
  specialize (H eq_refl Hall). vm_compute in H. lia.
Qed.

Lemma storage_query_error_witness :
  storage_stage env_query_fails loop_storage_due
  = (0%Z,
     [Log ERROR StorageCheckError; Log WARNING LowStorageCleaning;
      CleanDirectories])
  /\ snd (tick strptime_dmy_hms env_query_fails loop_storage_due)
     = snd (tick strptime_dmy_hms
              (set_disk_usage env_query_fails (Some plenty))
              loop_storage_due).
Proof.
  assert (H0 : disk_usage env_query_fails = None) by reflexivity.
  assert (H1 : (storage_check_interval (self loop_storage_due)
                <= storage_check_counter loop_storage_due + 1)%Z)
    by (cbn; lia).
  assert (H2 : (min_free_space (storage_monitor (self loop_storage_due))
                <= plenty)%Z)
    by (cbn; lia).
  split.
  - exact (proj1 (storage_query_error_purges strptime_dmy_hms
                    env_query_fails loop_storage_due plenty H0 H1 H2)).
  - exact (proj1 (proj2 (proj2 (proj2
             (storage_query_error_purges strptime_dmy_hms
                env_query_fails loop_storage_due plenty H0 H1 H2))))).
Defined.

(** Against C7 as stated: on the 300th pass the query raises and the
    scratch directories are purged. *)
Lemma query_error_purges_scratch :
  ~ query_error_leaves_scratch env_query_fails loop_storage_due.
Proof.
  intros H. specialize (H eq_refl). vm_compute in H. discriminate H.
Qed.

Lemma stability_amnesty_witness :
  healthy env_stable loop_three_restarts
  /\ (3600 < time_now env_stable - last_restart (self loop_three_restarts))%Q
  /\ restart_count
       (self (fst (fst (tick strptime_dmy_hms env_stable
                          loop_three_restarts))))
     = 0%Z
  /\ snd (tick strptime_dmy_hms env_stable loop_three_restarts) = Continue.
Proof.
  assert (Hh : healthy env_stable loop_three_restarts) by reflexivity.
  assert (Ht : (3600 < time_now env_stable
                       - last_restart (self loop_three_restarts))%Q)
    by (unfold Qlt; cbn; lia).
  split; [exact Hh | split; [exact Ht |]].
  exact (stability_amnesty_resets_count strptime_dmy_hms env_stable
           loop_three_restarts Hh Ht).
Defined.

Lemma poll_reads_only_appended_bytes_witness :
  check_logs strptime_dmy_hms
    (fst (check_logs strptime_dmy_hms LogMonitor_init (Content quiet_log)))
    (Content (quiet_log ++ sample_log)%string)
  = process_lines strptime_dmy_hms
      (set_last_position
         (fst (check_logs strptime_dmy_hms LogMonitor_init
                 (Content quiet_log)))
         (String.length (quiet_log ++ sample_log)%string))
      (readlines sample_log)
  /\ check_logs strptime_dmy_hms
       (fst (check_logs strptime_dmy_hms LogMonitor_init (Content quiet_log)))
       (Content quiet_log)
     = (fst (check_logs strptime_dmy_hms LogMonitor_init (Content quiet_log)),
        None).
Proof.
  apply (poll_reads_only_appended_bytes strptime_dmy_hms LogMonitor_init
           quiet_log sample_log).
  cbn. lia.
Defined.

Lemma returned_error_is_last_error_witness :
  exists (before : list string) (line : string) (after : list string),
    new_lines_of LogMonitor_init (Content sample_log)
    = before ++ line :: after
    /\ (forall l : string,
          In l before
          -> ends_batch (critical_errors LogMonitor_init) l = false)
    /\ get_last_error
         (fst (check_logs strptime_dmy_hms LogMonitor_init
                 (Content sample_log)))
       = Some (strip line)
    /\ ((contains socket_marker line = true
         /\ "01-01-2024 10:00:00 - ERROR - RuntimeError: boom" = burst_signal)
        \/ (contains socket_marker line = false
            /\ contains "ERROR" line = true
            /\ existsb (fun err => contains err line)
                 (critical_errors LogMonitor_init) = true
            /\ "01-01-2024 10:00:00 - ERROR - RuntimeError: boom"
               = strip line)).
Proof.
  apply (returned_error_is_last_error strptime_dmy_hms LogMonitor_init
           (Content sample_log)).
  vm_compute. reflexivity.
Defined.

Lemma quiet_batch_witness :
  check_logs strptime_dmy_hms LogMonitor_init (Content quiet_log)
  = (set_last_position LogMonitor_init
       (Nat.max (last_position LogMonitor_init) (String.length quiet_log)),
     None).
Proof.
  apply (quiet_batch_only_moves_cursor strptime_dmy_hms LogMonitor_init
           quiet_log).
  intros line Hin. vm_compute in Hin.
  destruct Hin as [<- | [<- | []]]; split; vm_compute; reflexivity.
Defined.

Lemma first_two_socket_errors_witness :
  snd (analyze_socket_error strptime_dmy_hms LogMonitor_init line_t0) = None
  /\ List.length
       (socket_errors
          (fst (analyze_socket_error strptime_dmy_hms LogMonitor_init
                  line_t0)))
     = List.length (socket_errors LogMonitor_init) + 1.
Proof.
  apply (first_two_socket_errors_never_signal strptime_dmy_hms
           LogMonitor_init line_t0).
  cbn. lia.
Defined.

Lemma burst_window_forgets_witness :
  snd (analyze_socket_error strptime_dmy_hms
         (record_lines strptime_dmy_hms
            (record_lines strptime_dmy_hms LogMonitor_init [line_unstamped])
            nine_socket_lines)
         line_t40)
  = snd (analyze_socket_error strptime_dmy_hms
           (record_lines strptime_dmy_hms LogMonitor_init nine_socket_lines)
           line_t40).
Proof.
  apply (burst_window_forgets strptime_dmy_hms
           (record_lines strptime_dmy_hms LogMonitor_init [line_unstamped])
           LogMonitor_init nine_socket_lines line_t40).
  - vm_compute. lia.
  - cbn. lia.
  - reflexivity.
Defined.

Lemma running_child_witness :
  snd (tick strptime_dmy_hms env_running_hot loop_log_due) = Continue
  /\ kills_or_launches
       (snd (fst (tick strptime_dmy_hms env_running_hot loop_log_due)))
     = false
  /\ bot_process
       (self (fst (fst (tick strptime_dmy_hms env_running_hot loop_log_due))))
     = Some 4242%Z
  /\ last_restart
       (self (fst (fst (tick strptime_dmy_hms env_running_hot loop_log_due))))
     = last_restart (self loop_log_due).
Proof.
  apply (running_child_is_never_restarted strptime_dmy_hms env_running_hot
           loop_log_due 4242%Z 95 99); reflexivity.
Defined.

Lemma exit_only_at_ceiling_witness :
  1%Z = 1%Z
  /\ unhealthy env_crash_after_100s loop_at_ceiling
  /\ (max_restarts (self loop_at_ceiling)
      <= restart_count (self loop_at_ceiling))%Z
  /\ (restart_interval (self loop_at_ceiling)
      < time_now env_crash_after_100s - last_restart (self loop_at_ceiling))%Q.
Proof.
  apply (exit_only_at_ceiling strptime_dmy_hms env_crash_after_100s
           loop_at_ceiling 1).
  vm_compute. reflexivity.
Defined.

Lemma successful_restart_witness :
  snd (tick strptime_dmy_hms env_zombie_after_100s loop_two_restarts)
  = Continue
  /\ bot_process
       (self (fst (fst (tick strptime_dmy_hms env_zombie_after_100s
                          loop_two_restarts))))
     = Some 4243%Z
  /\ restart_count
       (self (fst (fst (tick strptime_dmy_hms env_zombie_after_100s
                          loop_two_restarts))))
     = 3%Z
  /\ terminated_pids
       (snd (fst (tick strptime_dmy_hms env_zombie_after_100s
                    loop_two_restarts)))
     = [4300%Z; 4242%Z]
  /\ terminated_pids
       (snd (fst (tick strptime_dmy_hms env_crash_after_100s
                    loop_two_restarts)))
     = [].
Proof.
  assert (Hu : unhealthy env_zombie_after_100s loop_two_restarts)
    by reflexivity.
  assert (Hu' : unhealthy env_crash_after_100s loop_two_restarts)
    by reflexivity.
  assert (Ht : (restart_interval (self loop_two_restarts)
                < time_now env_zombie_after_100s
                  - last_restart (self loop_two_restarts))%Q)
    by (unfold Qlt; cbn; lia).
  assert (Ht' : (restart_interval (self loop_two_restarts)
                 < time_now env_crash_after_100s
                   - last_restart (self loop_two_restarts))%Q)
    by (unfold Qlt; cbn; lia).
  assert (Hc : (restart_count (self loop_two_restarts)
                < max_restarts (self loop_two_restarts))%Z)
    by (cbn; lia).
  pose proof (successful_restart_is_recorded strptime_dmy_hms
                env_zombie_after_100s loop_two_restarts 4243%Z Hu Ht Hc
                eq_refl) as (H1 & H2 & H3 & _ & _ & H6).
  pose proof (successful_restart_is_recorded strptime_dmy_hms
                env_crash_after_100s loop_two_restarts 4243%Z Hu' Ht' Hc
                eq_refl) as (_ & _ & _ & _ & _ & H6').
  split; [exact H1 | split; [exact H2 | split; [exact H3 |]]].
  split; [exact H6 | exact H6'].
Defined.

Lemma restart_count_invariant_witness :
  (0 <= restart_count
          (self (fst (fst (monitor_loop strptime_dmy_hms
                             [env_crash_after_100s; env_stable]
                             loop_two_restarts))))
   <= max_restarts (self loop_two_restarts))%Z
  /\ max_restarts
       (self (fst (fst (monitor_loop strptime_dmy_hms
                          [env_crash_after_100s; env_stable]
                          loop_two_restarts))))
     = max_restarts (self loop_two_restarts).
Proof.
  apply (restart_count_stays_within_ceiling strptime_dmy_hms
           [env_crash_after_100s; env_stable] loop_two_restarts).
  cbn. lia.
Defined.

Lemma launch_only_when_policy_allows_witness :
  popen_attempts
    (snd (fst (tick strptime_dmy_hms env_crash_after_100s loop_two_restarts)))
  = 1
  /\ unhealthy env_crash_after_100s loop_two_restarts
  /\ (restart_interval (self loop_two_restarts)
      < time_now env_crash_after_100s
        - last_restart (self loop_two_restarts))%Q
  /\ (restart_count (self loop_two_restarts)
      < max_restarts (self loop_two_restarts))%Z.
Proof.
  apply (launch_only_when_policy_allows strptime_dmy_hms
           env_crash_after_100s loop_two_restarts).
  vm_compute. intros H. discriminate H.
Defined.

Lemma log_is_read_only_when_due_witness :
  healthy env_running_hot loop_log_due
  /\ (log_check_interval (self loop_log_due)
      <= log_check_counter loop_log_due + 1)%Z.
Proof.
  apply (log_is_read_only_when_due strptime_dmy_hms env_running_hot
           loop_log_due).
  intros H. apply (f_equal last_position) in H. vm_compute in H.
  discriminate H.
Defined.

Lemma purge_is_idempotent_witness :
  clean_directories_on scratch_used = Some (scratch_purged, 2148%Z, true)
  /\ clean_directories_on scratch_purged = Some (scratch_purged, 0%Z, false).
Proof.
  assert (H : clean_directories_on scratch_used
              = Some (scratch_purged, 2148%Z, true)) by reflexivity.
  split; [exact H |].
  exact (proj1 (purge_is_idempotent scratch_used scratch_purged 2148%Z true
                  H)).
Defined.

Lemma fetched_chat_witness :
  get_chat_cached (cache_set [] chat_a (1700000000%Q, "title")) 1700040000
    app_down chat_a
  = (cache_set [] chat_a (1700000000%Q, "title"), Some "title", []).
Proof.
  apply (fetched_chat_is_served_from_cache string [] _ 1700000000 1700040000
           app_up app_down chat_a "title").
  - reflexivity.
  - unfold Qlt. cbn. lia.
Defined.

Lemma stale_entry_witness :
  get_chat_cached cache_with_old_entry 1700043200 app_up chat_a
  = (cache_set cache_with_old_entry chat_a (1700043200%Q, "title"),
     Some "title", [chat_a])
  /\ cache_get
       (fst (fst (get_chat_cached cache_with_old_entry 1700043200 app_up
                    chat_a)))
       chat_a
     = Some (1700043200%Q, "title").
Proof.
  apply (stale_entry_is_refetched string cache_with_old_entry 1700000000
           1700043200 app_up chat_a "old title").
  - reflexivity.
  - unfold Qle. cbn. lia.
Defined.

Lemma other_chats_witness :
  cache_get
    (fst (fst (get_chat_cached cache_with_old_entry 1700043200 app_up
                 chat_b)))
    chat_a
  = cache_get cache_with_old_entry chat_a.
Proof.
  apply (other_chats_are_untouched string cache_with_old_entry 1700043200
           app_up chat_b chat_a).
  unfold chat_a, chat_b. lia.
Defined.

Lemma returned_process_witness :
  Some 11%Z = Some 11%Z
  /\ ((@None Z = Some 11%Z /\ 11%Z <> 0%Z /\ LookupRunning = LookupRunning)
      \/ exists (ps : list ProcInfo) (p : ProcInfo),
           Some [proc_shell; proc_bot_gone; proc_bot] = Some ps
           /\ In p ps /\ info_pid p = 11%Z
           /\ matches_bot p = true /\ reopen p = Opened).
Proof.
  apply (returned_process_is_remembered None (Some 11%Z) LookupRunning
           (Some [proc_shell; proc_bot_gone; proc_bot]) 11%Z).
  vm_compute. reflexivity.
Defined.

Lemma scan_first_match_witness :
  scan_processes None ([proc_shell; proc_bot_gone] ++ proc_bot :: [])
  = (Some (info_pid proc_bot), Some (info_pid proc_bot)).
Proof.
  apply (scan_returns_first_openable_match None [proc_shell; proc_bot_gone]
           [] proc_bot).
  - intros q [<- | [<- | []]]; [left | right]; reflexivity.
  - reflexivity.
  - reflexivity.
Defined.

Lemma scan_without_match_witness :
  snd (scan_processes (Some 3%Z) [proc_shell; proc_bot_gone]) = None
  /\ fst (scan_processes (Some 3%Z) [proc_shell; proc_bot_gone])
     = match filter matches_bot [proc_shell; proc_bot_gone] with
       | [] => Some 3%Z
       | q :: qs => Some (info_pid (List.last qs q))
       end.
Proof.
  apply (scan_without_openable_match (Some 3%Z) [proc_shell; proc_bot_gone]).
  intros q [<- | [<- | []]]; [left | right]; reflexivity.
Defined.

Lemma failed_restart_witness :
  snd (tick strptime_dmy_hms (env_crashed 1700000100 None) loop_two_restarts)
  = Continue
  /\ bot_process
       (self (fst (fst (tick strptime_dmy_hms (env_crashed 1700000100 None)
                          loop_two_restarts))))
     = None
  /\ restart_count
       (self (fst (fst (tick strptime_dmy_hms (env_crashed 1700000100 None)
                          loop_two_restarts))))
     = restart_count (self loop_two_restarts)
  /\ forall env' : TickEnv,
       unhealthy env'
         (fst (fst (tick strptime_dmy_hms (env_crashed 1700000100 None)
                      loop_two_restarts))).
Proof.
  assert (Hu : unhealthy (env_crashed 1700000100 None) loop_two_restarts)
    by reflexivity.
  assert (Ht : (restart_interval (self loop_two_restarts)
                < time_now (env_crashed 1700000100 None)
                  - last_restart (self loop_two_restarts))%Q)
    by (unfold Qlt; cbn; lia).
  assert (Hc : (restart_count (self loop_two_restarts)
                < max_restarts (self loop_two_restarts))%Z)
    by (cbn; lia).
  pose proof (failed_restart_leaves_no_handle strptime_dmy_hms
                (env_crashed 1700000100 None) loop_two_restarts Hu Ht Hc
                eq_refl) as (H1 & H2 & H3 & _ & _ & H6).
  split; [exact H1 | split; [exact H2 | split; [exact H3 | exact H6]]].
Defined.

Lemma dying_child_witness :
  popen_successes
    (snd (fst (monitor_loop strptime_dmy_hms dying_child_passes
                 loop_never_started)))
  = 5
  /\ snd (monitor_loop strptime_dmy_hms dying_child_passes loop_never_started)
     = Exit 1
  /\ restart_count
       (self (fst (fst (monitor_loop strptime_dmy_hms dying_child_passes
                          loop_never_started))))
     = (restart_count (self loop_never_started)
        + Z.of_nat
            (popen_successes
               (snd (fst (monitor_loop strptime_dmy_hms dying_child_passes
                            loop_never_started)))))%Z
  /\ (Z.of_nat
        (popen_successes
           (snd (fst (monitor_loop strptime_dmy_hms dying_child_passes
                        loop_never_started))))
      <= max_restarts (self loop_never_started)
         - restart_count (self loop_never_started))%Z.
Proof.
  split; [vm_compute; reflexivity |].
  split; [vm_compute; reflexivity |].
  apply (restarts_of_dying_child_are_bounded strptime_dmy_hms
           dying_child_passes loop_never_started).
  - intros env Hin. cbn in Hin.
    repeat (destruct Hin as [<- | Hin]; [reflexivity |]). destruct Hin.
  - cbn. lia.
Defined.
